(** * Cromwell HPC configuration builder (bcbio/cwl/hpc.py)

    A shallow embedding of [bcbio.cwl.hpc]: the conversion of bcbio
    command line arguments into Cromwell command line flags and
    configuration parameters ([_args_to_cromwell]), and the rendering of
    the Cromwell configuration file ([create_cromwell_config]).

    Python values are modelled as follows:
    - [str] as [string], an absent value ([None]) as [None : option string];
    - [dict] with string keys as [gmap string _] (only lookups, item
      assignment and [update] are used, so insertion order is irrelevant);
    - a raised exception as [Raise e], see [pyresult];
    - the file system touched by [open(out_file, "w")] as a record of the
      files' contents and of what the environment refuses to open or to
      write, threaded through explicitly ([filesystem]);
    - for the question whether a call leaves anything behind, the dict
      objects the functions create and mutate are put in a store with
      addresses, and the code is embedded a second time over it (module
      [Store]), with the functions over plain values as its
      specification. *)

From Stdlib Require Import Ascii String.
From stdpp Require Import gmap strings list fin_maps.
Local Open Scope string_scope.

(** ** Exceptions *)

(** The exceptions the module can raise.  [OSError] and
    [UnicodeEncodeError] come from the environment, when the file is
    opened or written.  [Unmodelled] marks a use of the [%] operator
    outside the fragment embedded below (anything but [%%] and
    [%(key)s]); no template of the module reaches it. *)
Inductive pyerror : Type :=
| ValueError (msg : string)
| KeyError (key : string)
| OSError (msg : string)
| UnicodeEncodeError (msg : string)
| Unmodelled.

Inductive pyresult (A : Type) : Type :=
| Ok (a : A)
| Raise (e : pyerror).
Arguments Ok {A} a.
Arguments Raise {A} e.

#[global] Instance pyresult_ret : MRet pyresult := fun A a => Ok a.
#[global] Instance pyresult_bind : MBind pyresult := fun A B k m =>
  match m with
  | Ok a => k a
  | Raise e => Raise e
  end.
#[global] Instance pyresult_fmap : FMap pyresult := fun A B f m =>
  match m with
  | Ok a => Ok (f a)
  | Raise e => Raise e
  end.

Definition is_ok {A : Type} (m : pyresult A) : bool :=
  match m with Ok _ => true | Raise _ => false end.

(** ** Python string primitives *)

Definition dq : string := String "034"%char EmptyString.
Definition nl : string := String "010"%char EmptyString.

(** [s.split(sep)] for a one-character separator. *)
Fixpoint split (sep : ascii) (s : string) : list string :=
  match s with
  | EmptyString => [EmptyString]
  | String c s' =>
      if Ascii.eqb c sep then EmptyString :: split sep s'
      else match split sep s' with
           | h :: t => String c h :: t
           | [] => [String c EmptyString]
           end
  end.

(** [sep.join(l)] *)
Definition join (sep : string) (l : list string) : string := String.concat sep l.

Definition upper_char (c : ascii) : ascii :=
  let n := nat_of_ascii c in
  if (97 <=? n)%nat && (n <=? 122)%nat then ascii_of_nat (n - 32) else c.

(** [s.upper()] on ASCII text. *)
Fixpoint upper (s : string) : string :=
  match s with
  | EmptyString => EmptyString
  | String c s' => String (upper_char c) (upper s')
  end.

(** Truth value of an optional string: [None] and the empty string are
    false. *)
Definition truthy (o : option string) : bool :=
  match o with
  | Some (String _ _) => true
  | _ => false
  end.

(** [d.update(other)] *)
Definition update (d other : gmap string string) : gmap string string := other ∪ d.

(** ** The request *)

Record args : Type := Args {
  scheduler : option string;
  queue : option string;
  resources : list string;
  no_container : bool
}.

(** ** [_args_to_cromwell]

    The tables are local to the function and built at each call; the
    table [scheduler_map] of the source is never read and is left out. *)

Definition default_config : gmap string (gmap string string) :=
  list_to_map
    [("slurm", list_to_map [("timelimit", "1-00:00"); ("account", EmptyString)]);
     ("sge", list_to_map [("memtype", "mem_type"); ("pename", "smp")]);
     ("lsf", ∅);
     ("torque", list_to_map [("walltime", "1-00:00"); ("account", EmptyString)]);
     ("pbspro", list_to_map [("walltime", "1-00:00"); ("account", EmptyString);
                             ("cpu_and_mem", "-l select=1:ncpus=${cpu}:mem=${memory_mb}mb")])].

Definition prefixes : gmap (string * string) string :=
  list_to_map [(("account", "slurm"), "-A "); (("account", "pbspro"), "-A ")].

Definition custom : gmap (string * string) (string * string) :=
  list_to_map [(("noselect", "pbspro"), ("cpu_and_mem", "-l ncpus=${cpu} -l mem=${memory_mb}mb"))].

Definition unsupported_msg (s : string) : string :=
  "Scheduler not yet supported by Cromwell: " +:+ s.
Definition missing_queue_msg : string :=
  "Need to set queue (-q) for running with an HPC scheduler".

(** The two validation failures.  Both are raised as [ValueError]; they
    differ in their message. *)
Definition UnsupportedSchedulerError (s : string) : pyerror := ValueError (unsupported_msg s).
Definition MissingQueueError : pyerror := ValueError missing_queue_msg.

(** Body of the inner loop: one [r] of [rs.split(";")]. *)
Definition set_resource (sched : string) (config : gmap string string) (r : string)
  : gmap string string :=
  match split "=" r with
  | [key; val] => <[key := default EmptyString (prefixes !! (key, sched)) +:+ val]> config
  | [k] =>
      match custom !! (k, sched) with
      | Some (key, val) => <[key := val]> config
      | None => config
      end
  | _ => config
  end.

(** Body of the outer loop: one [rs] of [args.resources]. *)
Definition set_resources (sched : string) (config : gmap string string) (rs : string)
  : gmap string string :=
  foldl (set_resource sched) config (split ";" rs).

Definition _args_to_cromwell (a : args)
  : pyresult (list string * gmap string string * option string) :=
  let cl := ["-Dload-control.memory-threshold-in-mb=1"] in
  if truthy (scheduler a) then
    let sched := default EmptyString (scheduler a) in
    match default_config !! sched with
    | None => Raise (UnsupportedSchedulerError sched)
    | Some defaults =>
        if truthy (queue a) then
          let q := default EmptyString (queue a) in
          let config := defaults in
          let cl := (cl ++ ["-Dbackend.default=" +:+ upper sched])%list in
          let config := <["queue" := q]> config in
          let config := foldl (set_resources sched) config (resources a) in
          Ok (cl, config, Some sched)
        else Raise MissingQueueError
    end
  else
    Ok ((["-Dbackend.providers.Local.config.concurrent-job-limit=1"] ++ cl)%list, ∅, None).


(** The configuration parameters computed for a request (the second
    component of [_args_to_cromwell]). *)
Definition buildConfigParams (a : args) : pyresult (gmap string string) :=
  '(cl_args, conf_args, scheduler) ← _args_to_cromwell a;
  Ok conf_args.

(** ** The [%] operator on a format string and a mapping

    The scanner follows CPython's [PyUnicode_Format] on the fragment the
    module uses: literal text, [%%], and [%(key)s].  A key starts after
    [%(] and runs to the matching closing parenthesis, parentheses inside
    the key being counted; the key is looked up as soon as it is closed,
    and the character after it selects the conversion. *)

Inductive scan : Type :=
| Text                                  (* copying literal text *)
| Percent                               (* just after a [%] *)
| InKey (pcount : nat) (key : string)   (* inside [%(], [S pcount] parentheses open *)
| AfterKey (val : string).              (* key closed and found, conversion expected *)

Fixpoint format_from (d : gmap string string) (st : scan) (fmt : string) : pyresult string :=
  match fmt with
  | EmptyString =>
      match st with
      | Text => Ok EmptyString
      | Percent => Raise (ValueError "incomplete format")
      | InKey _ _ => Raise (ValueError "incomplete format key")
      | AfterKey _ => Raise (ValueError "incomplete format")
      end
  | String c fmt' =>
      match st with
      | Text =>
          if Ascii.eqb c "%" then format_from d Percent fmt'
          else String c <$> format_from d Text fmt'
      | Percent =>
          if Ascii.eqb c "(" then format_from d (InKey 0 EmptyString) fmt'
          else if Ascii.eqb c "%" then String c <$> format_from d Text fmt'
          else Raise Unmodelled
      | InKey pcount key =>
          if Ascii.eqb c ")" then
            match pcount with
            | O =>
                match d !! key with
                | Some val => format_from d (AfterKey val) fmt'
                | None => Raise (KeyError key)
                end
            | S n => format_from d (InKey n (key +:+ String c EmptyString)) fmt'
            end
          else if Ascii.eqb c "(" then
            format_from d (InKey (S pcount) (key +:+ String c EmptyString)) fmt'
          else format_from d (InKey pcount (key +:+ String c EmptyString)) fmt'
      | AfterKey val =>
          if Ascii.eqb c "s" then String.append val <$> format_from d Text fmt'
          else Raise Unmodelled
      end
  end.

(** [fmt % d] *)
Definition pyformat (fmt : string) (d : gmap string string) : pyresult string :=
  format_from d Text fmt.

(** ** Templates *)

Definition FILESYSTEM_CONFIG : string :=
  join nl
    [EmptyString;
     "      filesystems {";
     "        local {";
     "          localization: [" +:+ dq +:+ "soft-link" +:+ dq +:+ "]";
     "          caching {";
     "            duplication-strategy: [" +:+ dq +:+ "soft-link" +:+ dq +:+ "]";
     "            hashing-strategy: " +:+ dq +:+ "path" +:+ dq;
     "          }";
     "        }";
     "      }";
     EmptyString].

Definition CROMWELL_CONFIG : string :=
  join nl
    [EmptyString;
     "include required(classpath(" +:+ dq +:+ "application" +:+ dq +:+ "))";
     EmptyString;
     "system {";
     "  workflow-restart = true";
     "}";
     "call-caching {";
     "  enabled = true";
     "}";
     EmptyString;
     "database {";
     "  profile = " +:+ dq +:+ "slick.jdbc.HsqldbProfile$" +:+ dq;
     "  db {";
     "    driver = " +:+ dq +:+ "org.hsqldb.jdbcDriver" +:+ dq;
     "    url = " +:+ dq +:+ "jdbc:hsqldb:file:%(work_dir)s/persist/metadata;shutdown=false;hsqldb.tx=mvcc" +:+ dq;
     "    connectionTimeout = 20000";
     "  }";
     "}";
     EmptyString;
     "backend {";
     "  providers {";
     "    Local {";
     "      config {";
     "        runtime-attributes = " +:+ dq +:+ dq +:+ dq;
     "        Int? cpu";
     "        Int? memory_mb";
     "        %(docker_attrs)s";
     "        %(cwl_attrs)s";
     "        " +:+ dq +:+ dq +:+ dq;
     "        %(submit_docker)s";
     "        %(filesystem)s";
     "      }";
     "    }";
     "%(hpc)s";
     "  }";
     "}";
     EmptyString].

Definition HPC_slurm : string :=
  join nl
    [EmptyString;
     "    SLURM {";
     "      actor-factory = " +:+ dq +:+ "cromwell.backend.impl.sfs.config.ConfigBackendLifecycleActorFactory" +:+ dq;
     "      config {";
     "        runtime-attributes = " +:+ dq +:+ dq +:+ dq;
     "        Int cpu = 1";
     "        Int memory_mb = 2048";
     "        String queue = " +:+ dq +:+ "%(queue)s" +:+ dq;
     "        String timelimit = " +:+ dq +:+ "%(timelimit)s" +:+ dq;
     "        String account = " +:+ dq +:+ "%(account)s" +:+ dq;
     "        %(docker_attrs)s";
     "        %(cwl_attrs)s";
     "        " +:+ dq +:+ dq +:+ dq;
     "        submit = " +:+ dq +:+ dq +:+ dq;
     "            sbatch -J ${job_name} -D ${cwd} -o ${out} -e ${err} -t ${timelimit} -p ${queue} "
       +:+ "            ${" +:+ dq +:+ "--cpus-per-task=" +:+ dq +:+ " + cpu} --mem=${memory_mb} ${account} "
       +:+ "            --wrap " +:+ dq +:+ "/usr/bin/env bash ${script}" +:+ dq;
     "        " +:+ dq +:+ dq +:+ dq;
     "        kill = " +:+ dq +:+ "scancel ${job_id}" +:+ dq;
     "        check-alive = " +:+ dq +:+ "squeue -j ${job_id}" +:+ dq;
     "        job-id-regex = " +:+ dq +:+ "Submitted batch job (\\d+).*" +:+ dq;
     "        %(filesystem)s";
     "      }";
     "    }";
     EmptyString].

Definition HPC_sge : string :=
  join nl
    [EmptyString;
     "    SGE {";
     "      actor-factory = " +:+ dq +:+ "cromwell.backend.impl.sfs.config.ConfigBackendLifecycleActorFactory" +:+ dq;
     "      config {";
     "        runtime-attributes = " +:+ dq +:+ dq +:+ dq;
     "        Int cpu = 1";
     "        Int memory_mb = 2048";
     "        String queue = " +:+ dq +:+ "%(queue)s" +:+ dq;
     "        String pename = " +:+ dq +:+ "%(pename}s" +:+ dq;
     "        String memtype = " +:+ dq +:+ "%(memtype)s" +:+ dq;
     "        %(docker_attrs)s";
     "        %(cwl_attrs)s";
     "        " +:+ dq +:+ dq +:+ dq;
     "        submit = " +:+ dq +:+ dq +:+ dq;
     "        qsub -V -w w -j y -N ${job_name} -wd ${cwd} "
       +:+ "        -o ${out} -e ${err} -q ${queue} "
       +:+ "        -pe ${pename} ${cpu} ${" +:+ dq +:+ "-l " +:+ dq +:+ " + mem_type + " +:+ dq +:+ "=" +:+ dq +:+ " + memory_mb + " +:+ dq +:+ "m" +:+ dq +:+ "} "
       +:+ "        /usr/bin/env bash ${script}";
     "        " +:+ dq +:+ dq +:+ dq;
     "        kill = " +:+ dq +:+ "qdel ${job_id}" +:+ dq;
     "        check-alive = " +:+ dq +:+ "qstat -j ${job_id}" +:+ dq;
     "        job-id-regex = " +:+ dq +:+ "(\\d+)" +:+ dq;
     "        %(filesystem)s";
     "      }";
     "    }";
     EmptyString].

Definition HPC_pbspro : string :=
  join nl
    [EmptyString;
     "    PBSPRO {";
     "      actor-factory = " +:+ dq +:+ "cromwell.backend.impl.sfs.config.ConfigBackendLifecycleActorFactory" +:+ dq;
     "      config {";
     "        runtime-attributes = " +:+ dq +:+ dq +:+ dq;
     "        Int cpu = 1";
     "        Int memory_mb = 2048";
     "        String queue = " +:+ dq +:+ "%(queue)s" +:+ dq;
     "        String account = " +:+ dq +:+ "%(account)s" +:+ dq;
     "        String walltime = " +:+ dq +:+ "%(walltime)s" +:+ dq;
     "        %(docker_attrs)s";
     "        %(cwl_attrs)s";
     "        " +:+ dq +:+ dq +:+ dq;
     "        submit = " +:+ dq +:+ dq +:+ dq;
     "        qsub -V -l wd -N ${job_name} -o ${out} -e ${err} -q ${queue} -l walltime=${walltime} "
       +:+ "        %(cpu_and_mem)s "
       +:+ "        -- /usr/bin/env bash ${script}";
     "        " +:+ dq +:+ dq +:+ dq;
     "        kill = " +:+ dq +:+ "qdel ${job_id}" +:+ dq;
     "        check-alive = " +:+ dq +:+ "qstat -j ${job_id}" +:+ dq;
     "        job-id-regex = " +:+ dq +:+ "(\\d+)" +:+ dq;
     "        %(filesystem)s";
     "      }";
     "    }";
     EmptyString;
     EmptyString].

Definition HPC_torque : string :=
  join nl
    [EmptyString;
     "    TORQUE {";
     "      actor-factory = " +:+ dq +:+ "cromwell.backend.impl.sfs.config.ConfigBackendLifecycleActorFactory" +:+ dq;
     "      config {";
     "        runtime-attributes = " +:+ dq +:+ dq +:+ dq;
     "        Int cpu = 1";
     "        Int memory_mb = 2048";
     "        String queue = " +:+ dq +:+ "%(queue)s" +:+ dq;
     "        String account = " +:+ dq +:+ "%(account)s" +:+ dq;
     "        String walltime = " +:+ dq +:+ "%(walltime)s" +:+ dq;
     "        %(docker_attrs)s";
     "        %(cwl_attrs)s";
     "        " +:+ dq +:+ dq +:+ dq;
     "        submit = " +:+ dq +:+ dq +:+ dq;
     "        qsub -V -l wd -N ${job_name} -o ${out} -e ${err} -q ${queue} "
       +:+ "        -l nodes=1:ppn=${cpu} -l mem=${memory_mb}mb -l walltime=${walltime} "
       +:+ "        -- /usr/bin/env bash ${script}";
     "        " +:+ dq +:+ dq +:+ dq;
     "        kill = " +:+ dq +:+ "qdel ${job_id}" +:+ dq;
     "        check-alive = " +:+ dq +:+ "qstat -j ${job_id}" +:+ dq;
     "        job-id-regex = " +:+ dq +:+ "(\\d+)" +:+ dq;
     "        %(filesystem)s";
     "      }";
     "    }";
     EmptyString].

(** The table of per-scheduler backend templates.  It has four entries:
    there is none for lsf. *)
Definition HPC_CONFIGS : gmap string string :=
  list_to_map
    [("slurm", HPC_slurm); ("sge", HPC_sge); ("pbspro", HPC_pbspro); ("torque", HPC_torque)].

(** ** [create_cromwell_config] *)

(** [os.path.join(a, b)] for a relative [b]. *)
Fixpoint endswith_sep (a : string) : bool :=
  match a with
  | EmptyString => false
  | String c EmptyString => Ascii.eqb c "/"
  | String _ a' => endswith_sep a'
  end.

Definition path_join (a b : string) : string :=
  match a with
  | EmptyString => b
  | _ => if endswith_sep a then a +:+ b else a +:+ "/" +:+ b
  end.

Definition docker_attrs : list string := ["String? docker"; "String? docker_user"].
Definition cwl_attrs : list string :=
  ["Int? cpuMin"; "Int? cpuMax"; "Int? memoryMin"; "Int? memoryMax"; "String? outDirMin";
   "String? outDirMax"; "String? tmpDirMin"; "String? tmpDirMax"].

Definition std_args (a : args) : gmap string string :=
  list_to_map
    [("docker_attrs", if no_container a then EmptyString else join (nl +:+ "        ") docker_attrs);
     ("submit_docker", if no_container a then "submit-docker: " +:+ dq +:+ dq else EmptyString);
     ("cwl_attrs", join (nl +:+ "        ") cwl_attrs);
     ("filesystem", FILESYSTEM_CONFIG)].

(** The text of the [hpc] entry of [main_config]. *)
Definition hpc_block (sched : option string) (conf_args : gmap string string) : pyresult string :=
  if truthy sched then
    let s := default EmptyString sched in
    match HPC_CONFIGS !! s with
    | Some template => pyformat template conf_args
    | None => Raise (KeyError s)
    end
  else Ok EmptyString.

(** Everything up to the [with open(...)] statement: the mapping the top
    level template is filled with. *)
Definition main_config (a : args) (work_dir : string) : pyresult (gmap string string) :=
  '(cl_args, conf_args, sched) ← _args_to_cromwell a;
  let conf_args := update conf_args (std_args a) in
  hpc ← hpc_block sched conf_args;
  Ok (update (list_to_map [("hpc", hpc); ("work_dir", work_dir)]) (std_args a)).

(** The file system: the content of the files, and what the environment
    answers when a file is opened for writing or written to.  [open_error]
    gives the exception [open(path, "w")] raises (missing directory, a
    directory in place of the file, permissions), [write_error] the one
    [write(text)] raises on the open file (a text the encoding of the
    file cannot take, a full disk); [None] is success.  The calls modelled
    here change the contents only, never what the environment refuses. *)
Record filesystem : Type := FileSystem {
  files : gmap string string;
  open_error : string → option pyerror;
  write_error : string → string → option pyerror
}.

(** The file at [path] holds [text]. *)
Definition set_file (path text : string) (fs : filesystem) : filesystem :=
  FileSystem (<[path := text]> (files fs)) (open_error fs) (write_error fs).

(** No file, and an environment that refuses nothing. *)
Definition no_files : filesystem := FileSystem ∅ (λ _, None) (λ _ _, None).

(** No file, and an environment where no file can be opened for writing. *)
Definition read_only : filesystem :=
  FileSystem ∅ (λ path, Some (OSError path)) (λ _ _, None).

(** [with open(out_file, "w") as out_handle: out_handle.write(text)], the
    text computed from [mc] after the file has been opened: opening
    truncates the file. *)
Definition write_config (out_file : string) (mc : gmap string string) (fs : filesystem)
  : pyresult string * filesystem :=
  match open_error fs out_file with
  | Some e => (Raise e, fs)
  | None =>
      let fs := set_file out_file EmptyString fs in
      match pyformat CROMWELL_CONFIG mc with
      | Raise e => (Raise e, fs)
      | Ok text =>
          match write_error fs out_file text with
          | Some e => (Raise e, fs)
          | None => (Ok out_file, set_file out_file text fs)
          end
      end
  end.

Definition create_cromwell_config (a : args) (work_dir : string) (fs : filesystem)
  : pyresult string * filesystem :=
  let out_file := path_join work_dir "bcbio-cromwell.conf" in
  match main_config a work_dir with
  | Raise e => (Raise e, fs)
  | Ok main_config => write_config out_file main_config fs
  end.

(** The text [create_cromwell_config] writes, when it gets that far. *)
Definition render (a : args) (work_dir : string) : pyresult string :=
  main_config ← main_config a work_dir;
  pyformat CROMWELL_CONFIG main_config.

(** ** The code over a store of dict objects

    The functions above compute with dicts as values.  The code mutates
    dict objects: [config] is another name for one of the dicts the
    literal [default_config] creates, [_args_to_cromwell] assigns items of
    it and returns it, and [create_cromwell_config] mutates it again with
    [update]; [HPC_CONFIGS] is a dict of the module that every call reads.
    Here these dicts are objects in a memory, reached by address, and the
    two functions are embedded as they are written, as computations that
    read and change the memory.  Dicts that one function creates, uses
    under one name and does not return ([std_args], [main_config], the
    tables [prefixes] and [custom]) and the list [cl] stay values. *)
Module Store.

Definition loc : Type := positive.

Record memory : Type := Memory {
  module_HPC_CONFIGS : gmap string string;   (* the dict the module names HPC_CONFIGS *)
  objects : gmap loc (gmap string string)    (* the dicts created by the calls *)
}.

(** A computation on the memory: its result or exception, and the memory
    it leaves. *)
Definition st (A : Type) : Type := memory → pyresult A * memory.

#[global] Instance st_ret : MRet st := λ A a m, (Ok a, m).
#[global] Instance st_bind : MBind st := λ A B k c m,
  match c m with
  | (Ok a, m') => k a m'
  | (Raise e, m') => (Raise e, m')
  end.

Definition raise {A : Type} (e : pyerror) : st A := λ m, (Raise e, m).
Definition lift {A : Type} (r : pyresult A) : st A := λ m, (r, m).

(** A dict literal: a new object at an address not in use. *)
Definition new_dict (d : gmap string string) : st loc := λ m,
  let l := fresh (dom (objects m)) in
  (Ok l, Memory (module_HPC_CONFIGS m) (<[l := d]> (objects m))).

(** [d[k] = v] on the object at [l]. *)
Definition setitem (l : loc) (k v : string) : st unit := λ m,
  (Ok (), Memory (module_HPC_CONFIGS m) (alter (insert k v) l (objects m))).

(** [d.update(other)] on the object at [l]. *)
Definition dict_update (l : loc) (other : gmap string string) : st unit := λ m,
  (Ok (), Memory (module_HPC_CONFIGS m) (alter (λ d, update d other) l (objects m))).

(** The present content of the object at [l]. *)
Definition read (l : loc) : st (gmap string string) := λ m,
  (Ok (default ∅ (objects m !! l)), m).

(** The present content of the dict the module names [HPC_CONFIGS]. *)
Definition global_HPC_CONFIGS : st (gmap string string) := λ m,
  (Ok (module_HPC_CONFIGS m), m).

(** [for x in l: body(x)] *)
Fixpoint for_each {A : Type} (body : A → st unit) (l : list A) : st unit :=
  match l with
  | [] => mret ()
  | x :: l' => body x ;; for_each body l'
  end.

(** The inner dict literals of [default_config], in the order they are
    evaluated. *)
Definition default_config_literal : list (string * gmap string string) :=
  [("slurm", list_to_map [("timelimit", "1-00:00"); ("account", EmptyString)]);
   ("sge", list_to_map [("memtype", "mem_type"); ("pename", "smp")]);
   ("lsf", ∅);
   ("torque", list_to_map [("walltime", "1-00:00"); ("account", EmptyString)]);
   ("pbspro", list_to_map [("walltime", "1-00:00"); ("account", EmptyString);
                           ("cpu_and_mem", "-l select=1:ncpus=${cpu}:mem=${memory_mb}mb")])].

(** A dict literal whose values are dict literals: each inner dict is a
    new object, and the table binds the names to their addresses. *)
Fixpoint new_dicts (entries : list (string * gmap string string)) : st (gmap string loc) :=
  match entries with
  | [] => mret ∅
  | (name, d) :: rest =>
      l ← new_dict d;
      table ← new_dicts rest;
      mret (<[name := l]> table)
  end.

(** Body of the inner loop, on the object [config] refers to. *)
Definition set_resource (sched : string) (config : loc) (r : string) : st unit :=
  match split "=" r with
  | [key; val] => setitem config key (default EmptyString (prefixes !! (key, sched)) +:+ val)
  | [k] =>
      match custom !! (k, sched) with
      | Some (key, val) => setitem config key val
      | None => mret ()
      end
  | _ => mret ()
  end.

Definition _args_to_cromwell (a : args) : st (list string * loc * option string) :=
  default_config ← new_dicts default_config_literal;
  let cl := ["-Dload-control.memory-threshold-in-mb=1"] in
  if truthy (scheduler a) then
    let sched := default EmptyString (scheduler a) in
    match default_config !! sched with
    | None => raise (UnsupportedSchedulerError sched)
    | Some config =>
        if truthy (queue a) then
          let cl := (cl ++ ["-Dbackend.default=" +:+ upper sched])%list in
          setitem config "queue" (default EmptyString (queue a));;
          for_each (λ rs, for_each (set_resource sched config) (split ";" rs)) (resources a);;
          mret (cl, config, Some sched)
        else raise MissingQueueError
    end
  else
    config ← new_dict ∅;
    mret ((["-Dbackend.providers.Local.config.concurrent-job-limit=1"] ++ cl)%list, config, None).

(** [create_cromwell_config] up to the [with open(...)] statement. *)
Definition main_config (a : args) (work_dir : string) : st (gmap string string) :=
  '(cl_args, conf_args, sched) ← _args_to_cromwell a;
  dict_update conf_args (std_args a);;
  hpc ← (if truthy sched then
           let s := default EmptyString sched in
           table ← global_HPC_CONFIGS;
           match table !! s with
           | Some template => d ← read conf_args; lift (pyformat template d)
           | None => raise (KeyError s)
           end
         else mret EmptyString);
  mret (update (list_to_map [("hpc", hpc); ("work_dir", work_dir)]) (std_args a)).

Definition create_cromwell_config (a : args) (work_dir : string) (m : memory) (fs : filesystem)
  : pyresult string * memory * filesystem :=
  let out_file := path_join work_dir "bcbio-cromwell.conf" in
  match main_config a work_dir m with
  | (Raise e, m') => (Raise e, m', fs)
  | (Ok mc, m') =>
      let '(r, fs') := write_config out_file mc fs in
      (r, m', fs')
  end.

(** The memory [m] with the object at [l] holding [d]. *)
Definition with_object (l : loc) (d : gmap string string) (m : memory) : memory :=
  Memory (module_HPC_CONFIGS m) (<[l := d]> (objects m)).

(** The module dict is as it was, and so is every object there was. *)
Definition preserved (m m' : memory) : Prop :=
  module_HPC_CONFIGS m' = module_HPC_CONFIGS m ∧ objects m ⊆ objects m'.

(** The module dict is as the module defines it. *)
Definition loaded (m : memory) : Prop := module_HPC_CONFIGS m = HPC_CONFIGS.

(** The run [run] of [Store._args_to_cromwell] from [m] gives what [spec]
    says: the same exception, or the same flags and scheduler and a dict
    that did not exist in [m] and holds the mapping of [spec]. *)
Definition returns (m : memory)
    (run : pyresult (list string * loc * option string) * memory)
    (spec : pyresult (list string * gmap string string * option string)) : Prop :=
  match run.1, spec with
  | Ok (cl, l, s), Ok (cl', config, s') =>
      cl = cl' ∧ s = s' ∧ objects m !! l = None ∧ objects run.2 !! l = Some config
  | Raise e, Raise e' => e = e'
  | _, _ => False
  end.

(** A second call of [create_cromwell_config] with the same arguments, in
    the memory and on the files the first call has left. *)
Definition again (a : args) (work_dir : string) (m : memory) (fs : filesystem)
  : pyresult string * memory * filesystem :=
  create_cromwell_config a work_dir
    (create_cromwell_config a work_dir m fs).1.2 (create_cromwell_config a work_dir m fs).2.

(** A memory with the module loaded and one dict in use. *)
Definition memory_in_use : memory :=
  Memory HPC_CONFIGS (<[1%positive := <["queue" := "q0"]> ∅]> ∅).

End Store.

(** ** Vocabulary of the properties *)

(** The schedulers [_args_to_cromwell] accepts. *)
Definition supported (s : string) : Prop :=
  s ∈ ["slurm"; "sge"; "lsf"; "torque"; "pbspro"].

Definition memory_flag : string := "-Dload-control.memory-threshold-in-mb=1".
Definition local_limit_flag : string := "-Dbackend.providers.Local.config.concurrent-job-limit=1".

(** What a formatting run does, its text put aside. *)
Definition outcome (r : pyresult string) : pyresult unit := (λ _, ()) <$> r.

(** A mapping with exactly the keys [ks], each bound to the empty string. *)
Definition blank (ks : list string) : gmap string string :=
  list_to_map ((λ k, (k, EmptyString)) <$> ks).

(** The two scanner states are at the same point of a format: they may
    differ only in the value found for the last key. *)
Definition same_point (st st' : scan) : Prop :=
  match st, st' with
  | Text, Text | Percent, Percent | AfterKey _, AfterKey _ => True
  | InKey n k, InKey n' k' => n = n' ∧ k = k'
  | _, _ => False
  end.

(** The character [c] occurs in [s]. *)
Fixpoint has_char (c : ascii) (s : string) : bool :=
  match s with
  | EmptyString => false
  | String x s' => Ascii.eqb x c || has_char c s'
  end.

(** [r] is a [key=value] token for the key [k]. *)
Definition assigns (k : string) (r : string) : bool :=
  match split "=" r with
  | [key; _] => String.eqb key k
  | _ => false
  end.

(** Some token of the override list [rss] assigns the key [k]. *)
Definition overrides_key (k : string) (rss : list string) : bool :=
  existsb (λ rs, existsb (assigns k) (split ";" rs)) rss.

(** The returned mapping binds [queue] to the queue of the request. *)
Definition queue_preserved (a : args) : Prop :=
  ∃ config, buildConfigParams a = Ok config ∧ config !! "queue" = queue a.

(** Every token of [rs.split(";")] is a bare key without an entry for
    [sched] in the [custom] table. *)
Definition bare_unlisted (sched : string) (rs : string) : Prop :=
  Forall (λ r, ∃ k, split "=" r = [k] ∧ custom !! (k, sched) = None) (split ";" rs).

(** ** Vocabulary of the further properties *)

(** Number of occurrences of [c] in [s]. *)
Fixpoint count_char (c : ascii) (s : string) : nat :=
  match s with
  | EmptyString => 0
  | String x s' => (if Ascii.eqb x c then 1 else 0) + count_char c s'
  end.

(** The two mappings agree on every key but [k]. *)
Definition agree_except (k : string) (m m' : gmap string string) : Prop :=
  ∀ j, j ≠ k → m !! j = m' !! j.

(** The keys of [std_args]. *)
Definition std_keys : list string :=
  ["docker_attrs"; "submit_docker"; "cwl_attrs"; "filesystem"].

(** [sub] occurs in [text]. *)
Definition contains (sub text : string) : Prop :=
  ∃ pre post, text = pre +:+ sub +:+ post.

(** A format string read as a sequence of literal characters and
    [%(key)s] placeholders. *)
Inductive piece : Type :=
| Lit (c : ascii)
| Key (key : string).

(** The scanner of [format_from] without a mapping: it collects the
    pieces instead of looking keys up, and here [AfterKey] carries the
    key.  It gives up ([None]) where [format_from] raises for every
    mapping. *)
Fixpoint pieces_from (st : scan) (fmt : string) : option (list piece) :=
  match fmt with
  | EmptyString =>
      match st with
      | Text => Some []
      | _ => None
      end
  | String c fmt' =>
      match st with
      | Text =>
          if Ascii.eqb c "%" then pieces_from Percent fmt'
          else cons (Lit c) <$> pieces_from Text fmt'
      | Percent =>
          if Ascii.eqb c "(" then pieces_from (InKey 0 EmptyString) fmt'
          else if Ascii.eqb c "%" then cons (Lit c) <$> pieces_from Text fmt'
          else None
      | InKey pcount key =>
          if Ascii.eqb c ")" then
            match pcount with
            | O => pieces_from (AfterKey key) fmt'
            | S n => pieces_from (InKey n (key +:+ String c EmptyString)) fmt'
            end
          else if Ascii.eqb c "(" then
            pieces_from (InKey (S pcount) (key +:+ String c EmptyString)) fmt'
          else pieces_from (InKey pcount (key +:+ String c EmptyString)) fmt'
      | AfterKey key =>
          if Ascii.eqb c "s" then cons (Key key) <$> pieces_from Text fmt'
          else None
      end
  end.

Definition pieces (fmt : string) : option (list piece) := pieces_from Text fmt.

(** The text of a sequence of pieces under a mapping. *)
Fixpoint fill (d : gmap string string) (ps : list piece) : string :=
  match ps with
  | [] => EmptyString
  | Lit c :: ps' => String c (fill d ps')
  | Key key :: ps' => default EmptyString (d !! key) +:+ fill d ps'
  end.

(** The placeholders of a sequence of pieces. *)
Fixpoint keys_of (ps : list piece) : list string :=
  match ps with
  | [] => []
  | Lit _ :: ps' => keys_of ps'
  | Key key :: ps' => key :: keys_of ps'
  end.

(** The literal text [s] as pieces. *)
Fixpoint lits (s : string) : list piece :=
  match s with
  | EmptyString => []
  | String c s' => Lit c :: lits s'
  end.

(** Position of the first placeholder for [k] in [ps] (the length of
    [ps] if there is none). *)
Fixpoint key_index (k : string) (ps : list piece) : nat :=
  match ps with
  | [] => 0
  | Key key :: ps' => if String.eqb key k then 0 else S (key_index k ps')
  | Lit _ :: ps' => S (key_index k ps')
  end.

(** The scanner state of [format_from] that goes with a state of
    [pieces_from]: the same, with the value of the key found. *)
Definition found (d : gmap string string) (st st' : scan) : Prop :=
  match st, st' with
  | Text, Text | Percent, Percent => True
  | InKey n k, InKey n' k' => n = n' ∧ k = k'
  | AfterKey key, AfterKey val => d !! key = Some val
  | _, _ => False
  end.

(** The pieces of a template ([[]] when it has none). *)
Definition template_pieces (fmt : string) : list piece := default [] (pieces fmt).

(** Where the value of a placeholder of a backend template comes from:
    a default of the scheduler, the queue, or a standard key. *)
Definition key_source (defaults : gmap string string) (k : string) : bool :=
  bool_decide (is_Some (defaults !! k)) || String.eqb k "queue"
  || existsb (String.eqb k) std_keys.

(** What the token [r] writes under the scheduler [sched]: the key and
    the value, if it writes at all. *)
Definition written (sched r : string) : option (string * string) :=
  match split "=" r with
  | [key; val] => Some (key, default EmptyString (prefixes !! (key, sched)) +:+ val)
  | [k] => custom !! (k, sched)
  | _ => None
  end.

(** The value the last token of [l] writing the key [k] gives it. *)
Fixpoint last_write (sched k : string) (l : list string) : option string :=
  match l with
  | [] => None
  | r :: l' =>
      match last_write sched k l' with
      | Some c => Some c
      | None =>
          match written sched r with
          | Some (key, c) => if String.eqb key k then Some c else None
          | None => None
          end
      end
  end.

(** * Properties *)

(** ** Truth values and the scheduler table *)

Lemma truthy_true (o : option string) :
  truthy o = true ↔ ∃ s, o = Some s ∧ s ≠ EmptyString.
Proof.
  split.
  - destruct o as [[|c s]|]; simpl; try discriminate.
    intros _. exists (String c s). split; [reflexivity | discriminate].
  - intros (s & -> & Hs). destruct s; [contradiction | reflexivity].
Qed.

Lemma truthy_false (o : option string) :
  truthy o = false ↔ o = None ∨ o = Some EmptyString.
Proof.
  split.
  - destruct o as [[|c s]|]; simpl; try discriminate; auto.
  - intros [-> | ->]; reflexivity.
Qed.

(** Membership of a literal name in the supported set. *)
Ltac solve_supported :=
  unfold supported; rewrite !elem_of_cons; repeat first [left; reflexivity | right].

(** A supported name is one of the five literals: split the cases. *)
Ltac supported_cases H :=
  unfold supported in H; rewrite !elem_of_cons, elem_of_nil in H;
  destruct H as [-> | [-> | [-> | [-> | [-> | []]]]]].

Lemma supported_nonempty (s : string) : supported s → s ≠ EmptyString.
Proof. intros H. supported_cases H; discriminate. Qed.

Lemma default_config_supported (s : string) :
  is_Some (default_config !! s) ↔ supported s.
Proof.
  unfold supported, default_config. cbn [list_to_map foldr fst snd].
  rewrite !lookup_insert_is_Some', lookup_empty, is_Some_alt.
  rewrite !elem_of_cons, elem_of_nil. intuition congruence.
Qed.

Lemma default_config_unsupported (s : string) :
  default_config !! s = None ↔ ¬ supported s.
Proof.
  rewrite <- default_config_supported, eq_None_not_Some. reflexivity.
Qed.

Lemma custom_lookup (k sched key val : string) :
  custom !! (k, sched) = Some (key, val) →
  k = "noselect" ∧ sched = "pbspro" ∧ key = "cpu_and_mem"
  ∧ val = "-l ncpus=${cpu} -l mem=${memory_mb}mb".
Proof.
  unfold custom. cbn [list_to_map foldr fst snd].
  rewrite lookup_insert. case_decide as H.
  - intros [= <- <-]. injection H as <- <-. auto.
  - rewrite lookup_empty. discriminate.
Qed.

(** ** Splitting *)

Lemma has_char_app (c : ascii) (s t : string) :
  has_char c (s +:+ t) = has_char c s || has_char c t.
Proof.
  induction s as [|x s IH]; simpl; [reflexivity|].
  rewrite IH. now destruct (Ascii.eqb x c).
Qed.

Lemma split_none (sep : ascii) (s : string) :
  has_char sep s = false → split sep s = [s].
Proof.
  induction s as [|x s IH]; simpl; [reflexivity|].
  destruct (Ascii.eqb x sep); [discriminate|].
  intros H. now rewrite (IH H).
Qed.

Lemma split_app (sep : ascii) (k v : string) :
  has_char sep k = false → split sep (k +:+ String sep v) = k :: split sep v.
Proof.
  induction k as [|x k IH]; simpl.
  - intros _. now rewrite Ascii.eqb_refl.
  - destruct (Ascii.eqb x sep); [discriminate|].
    intros H. now rewrite (IH H).
Qed.

(** ** The override loop *)

Section override_loop.

Variable sched : string.

Lemma set_resource_is_Some (config : gmap string string) (r k : string) :
  is_Some (config !! k) → is_Some (set_resource sched config r !! k).
Proof.
  intros H. unfold set_resource.
  destruct (split "=" r) as [|x [|y [|z l]]]; try assumption.
  - destruct (custom !! (x, sched)) as [[key val]|]; [|assumption].
    apply lookup_insert_is_Some'. auto.
  - apply lookup_insert_is_Some'. auto.
Qed.

Lemma set_resources_is_Some (rs k : string) (config : gmap string string) :
  is_Some (config !! k) → is_Some (set_resources sched config rs !! k).
Proof.
  unfold set_resources. generalize (split ";" rs) as l. intros l. revert config.
  induction l as [|r l IH]; intros config H; simpl; [assumption|].
  apply IH. now apply set_resource_is_Some.
Qed.

Lemma foldl_set_resources_is_Some (k : string) (rss : list string)
    (config : gmap string string) :
  is_Some (config !! k) → is_Some (foldl (set_resources sched) config rss !! k).
Proof.
  revert config. induction rss as [|rs rss IH]; intros config H; simpl; [assumption|].
  apply IH. now apply set_resources_is_Some.
Qed.

Lemma set_resource_other (config : gmap string string) (r k : string) :
  assigns k r = false → k ≠ "cpu_and_mem" →
  set_resource sched config r !! k = config !! k.
Proof.
  unfold assigns, set_resource. intros Hr Hk.
  destruct (split "=" r) as [|x [|y [|z l]]]; try reflexivity.
  - destruct (custom !! (x, sched)) as [[key val]|] eqn:Hc; [|reflexivity].
    apply custom_lookup in Hc as (_ & _ & -> & _).
    now rewrite lookup_insert_ne.
  - apply String.eqb_neq in Hr. now rewrite lookup_insert_ne.
Qed.

Lemma foldl_set_resources_other (k : string) (rss : list string)
    (config : gmap string string) :
  overrides_key k rss = false → k ≠ "cpu_and_mem" →
  foldl (set_resources sched) config rss !! k = config !! k.
Proof.
  intros Ho Hk. revert config Ho.
  induction rss as [|rs rss IH]; intros config Ho; simpl in *; [reflexivity|].
  apply orb_false_iff in Ho as [Hrs Ho]. rewrite IH by assumption.
  unfold set_resources. revert config Hrs.
  induction (split ";" rs) as [|r l IHl]; intros config Hrs; simpl in *; [reflexivity|].
  apply orb_false_iff in Hrs as [Hr Hrs]. rewrite IHl by assumption.
  now apply set_resource_other.
Qed.

Lemma set_resource_bare (config : gmap string string) (r k : string) :
  split "=" r = [k] → custom !! (k, sched) = None → set_resource sched config r = config.
Proof. intros Hs Hc. unfold set_resource. now rewrite Hs, Hc. Qed.

Lemma set_resources_bare (rs : string) (config : gmap string string) :
  bare_unlisted sched rs → set_resources sched config rs = config.
Proof.
  unfold bare_unlisted, set_resources. generalize (split ";" rs) as l.
  induction l as [|r l IH]; intros H; simpl; [reflexivity|].
  inversion H as [|? ? (k & Hs & Hc) Hl]; subst.
  rewrite (set_resource_bare _ _ _ Hs Hc). now apply IH.
Qed.

Lemma set_resources_assign (k v : string) (config : gmap string string) :
  has_char "=" k = false → has_char "=" v = false →
  has_char ";" k = false → has_char ";" v = false →
  set_resources sched config (k +:+ "=" +:+ v)
  = <[k := default EmptyString (prefixes !! (k, sched)) +:+ v]> config.
Proof.
  intros Hk Hv Hk' Hv'. unfold set_resources.
  rewrite split_none by (rewrite !has_char_app, Hk', Hv'; reflexivity).
  cbn [foldl]. unfold set_resource.
  change (k +:+ "=" +:+ v) with (k +:+ String "=" v).
  now rewrite (split_app _ _ _ Hk), (split_none _ _ Hv).
Qed.

End override_loop.

(** ** Validation failures of [_args_to_cromwell] *)

Lemma args_to_cromwell_scheduled (a : args) (s : string) :
  scheduler a = Some s → s ≠ EmptyString →
  _args_to_cromwell a =
    match default_config !! s with
    | None => Raise (UnsupportedSchedulerError s)
    | Some defaults =>
        match queue a with
        | Some (String c q) =>
            Ok ([memory_flag; "-Dbackend.default=" +:+ upper s],
                foldl (set_resources s) (<["queue" := String c q]> defaults) (resources a),
                Some s)
        | _ => Raise MissingQueueError
        end
    end.
Proof.
  intros Hs Hne. unfold _args_to_cromwell. rewrite Hs.
  destruct s as [|c0 s0]; [contradiction|]. cbn [truthy default from_option id].
  destruct (default_config !! String c0 s0); [|reflexivity].
  destruct (queue a) as [[|c q]|]; reflexivity.
Qed.

Lemma args_to_cromwell_local (a : args) :
  truthy (scheduler a) = false →
  _args_to_cromwell a = Ok ([local_limit_flag; memory_flag], ∅, None).
Proof. intros H. unfold _args_to_cromwell. now rewrite H. Qed.

(** C3: [_args_to_cromwell] raises exactly when a scheduler is set and
    either the scheduler is not one of slurm, sge, lsf, torque, pbspro, or
    the queue is empty or absent.  In the first case it raises the
    unsupported-scheduler error, otherwise (supported scheduler, no queue)
    the missing-queue error; with a supported scheduler and a non-empty
    queue it raises nothing; and the two errors are never equal, so the
    caller can tell them apart. *)
Theorem args_to_cromwell_raises (a : args) :
  (is_ok (_args_to_cromwell a) = false ↔
     ∃ s, scheduler a = Some s ∧ s ≠ EmptyString ∧
          (¬ supported s ∨ queue a = None ∨ queue a = Some EmptyString))
  ∧ (∀ s, scheduler a = Some s → s ≠ EmptyString → ¬ supported s →
       _args_to_cromwell a = Raise (UnsupportedSchedulerError s))
  ∧ (∀ s, scheduler a = Some s → s ≠ EmptyString → supported s →
       queue a = None ∨ queue a = Some EmptyString →
       _args_to_cromwell a = Raise MissingQueueError)
  ∧ (∀ s q, scheduler a = Some s → supported s →
       queue a = Some q → q ≠ EmptyString →
       is_ok (_args_to_cromwell a) = true)
  ∧ (∀ s, UnsupportedSchedulerError s ≠ MissingQueueError).
Proof.
  assert (Hunsup : ∀ s, scheduler a = Some s → s ≠ EmptyString → ¬ supported s →
            _args_to_cromwell a = Raise (UnsupportedSchedulerError s)).
  { intros s Hs Hne Hsup. rewrite (args_to_cromwell_scheduled a s Hs Hne).
    apply default_config_unsupported in Hsup. now rewrite Hsup. }
  assert (Hmiss : ∀ s, scheduler a = Some s → s ≠ EmptyString → supported s →
            queue a = None ∨ queue a = Some EmptyString →
            _args_to_cromwell a = Raise MissingQueueError).
  { intros s Hs Hne Hsup Hq. rewrite (args_to_cromwell_scheduled a s Hs Hne).
    apply default_config_supported in Hsup as [d ->].
    destruct Hq as [-> | ->]; reflexivity. }
  assert (Hok : ∀ s q, scheduler a = Some s → supported s →
            queue a = Some q → q ≠ EmptyString →
            is_ok (_args_to_cromwell a) = true).
  { intros s q Hs Hsup Hq Hqne.
    assert (Hne : s ≠ EmptyString) by now apply supported_nonempty.
    rewrite (args_to_cromwell_scheduled a s Hs Hne).
    apply default_config_supported in Hsup as [d ->].
    rewrite Hq. destruct q; [contradiction | reflexivity]. }
  split; [|split; [exact Hunsup | split; [exact Hmiss | split; [exact Hok |]]]].
  - split.
    + intros Hfail. destruct (truthy (scheduler a)) eqn:Ht.
      * apply truthy_true in Ht as (s & Hs & Hne). exists s.
        split; [assumption | split; [assumption |]].
        destruct (decide (supported s)) as [Hsup | Hsup]; [right | now left].
        destruct (queue a) as [[|c q]|] eqn:Hq; auto.
        assert (is_ok (_args_to_cromwell a) = true) as Hgood
          by (apply (Hok s (String c q)); [assumption | assumption | reflexivity | discriminate]).
        congruence.
      * rewrite (args_to_cromwell_local a Ht) in Hfail. discriminate.
    + intros (s & Hs & Hne & H).
      destruct (decide (supported s)) as [Hsup | Hsup].
      * destruct H as [H | H]; [contradiction|]. now rewrite (Hmiss s Hs Hne Hsup H).
      * now rewrite (Hunsup s Hs Hne Hsup).
  - intros s. unfold UnsupportedSchedulerError, MissingQueueError, unsupported_msg,
      missing_queue_msg. discriminate.
Qed.

Lemma args_to_cromwell_raises_witness :
  _args_to_cromwell (Args (Some "condor") (Some "q1") [] false)
    = Raise (UnsupportedSchedulerError "condor")
  ∧ _args_to_cromwell (Args (Some "slurm") None [] false) = Raise MissingQueueError
  ∧ is_ok (_args_to_cromwell (Args (Some "slurm") (Some "q1") [] false)) = true.
Proof.
  split; [|split].
  - apply (proj1 (proj2 (args_to_cromwell_raises (Args (Some "condor") (Some "q1") [] false)))).
    + reflexivity.
    + discriminate.
    + unfold supported. rewrite !elem_of_cons, elem_of_nil. intuition discriminate.
  - apply (proj1 (proj2 (proj2 (args_to_cromwell_raises (Args (Some "slurm") None [] false)))))
      with (s := "slurm").
    + reflexivity.
    + discriminate.
    + solve_supported.
    + left. reflexivity.
  - apply (proj1 (proj2 (proj2 (proj2
      (args_to_cromwell_raises (Args (Some "slurm") (Some "q1") [] false))))))
      with (s := "slurm") (q := "q1").
    + reflexivity.
    + solve_supported.
    + reflexivity.
    + discriminate.
Defined.

(** ** Configuration parameters *)

Lemma buildConfigParams_scheduled (s q : string) (rss : list string) (nc : bool) :
  supported s → q ≠ EmptyString →
  ∃ defaults,
    default_config !! s = Some defaults ∧
    _args_to_cromwell (Args (Some s) (Some q) rss nc) =
      Ok ([memory_flag; "-Dbackend.default=" +:+ upper s],
          foldl (set_resources s) (<["queue" := q]> defaults) rss,
          Some s).
Proof.
  intros Hsup Hq.
  assert (Hne : s ≠ EmptyString) by now apply supported_nonempty.
  apply default_config_supported in Hsup as [d Hd]. exists d. split; [assumption|].
  rewrite (args_to_cromwell_scheduled (Args (Some s) (Some q) rss nc) s eq_refl Hne), Hd.
  cbn [queue resources].
  destruct q; [contradiction | reflexivity].
Qed.

(** C4: overrides are applied in order, the last write to a key wins, and
    the prefix of the (key, scheduler) pair is put before each value: for
    slurm with the overrides account=A1 then account=A2, the resulting
    mapping binds account to "-A A2".  In general, whatever overrides come
    first, the key of a final key=value override is bound to its value
    with the prefix of the table in front. *)
Theorem override_last_write_wins :
  (∀ q nc, q ≠ EmptyString →
     ∃ config,
       buildConfigParams (Args (Some "slurm") (Some q) ["account=A1"; "account=A2"] nc)
         = Ok config
       ∧ config !! "account" = Some "-A A2")
  ∧ (∀ s q rss k v nc,
       supported s → q ≠ EmptyString →
       has_char "=" k = false → has_char "=" v = false →
       has_char ";" k = false → has_char ";" v = false →
       ∃ config,
         buildConfigParams (Args (Some s) (Some q) (rss ++ [k +:+ "=" +:+ v])%list nc)
           = Ok config
         ∧ config !! k = Some (default EmptyString (prefixes !! (k, s)) +:+ v))
  ∧ prefixes !! ("account", "slurm") = Some "-A "
  ∧ prefixes !! ("account", "pbspro") = Some "-A ".
Proof.
  split; [|split; [|split; reflexivity]].
  - intros q nc Hq. destruct q as [|c q]; [contradiction|].
    eexists. split; [reflexivity|]. vm_compute. reflexivity.
  - intros s q rss k v nc Hsup Hq Hk Hv Hk' Hv'. unfold buildConfigParams.
    destruct (buildConfigParams_scheduled s q (rss ++ [k +:+ "=" +:+ v])%list nc Hsup Hq)
      as (d & Hd & ->).
    eexists. split; [reflexivity|].
    rewrite foldl_app. cbn [foldl].
    rewrite (set_resources_assign _ _ _ _ Hk Hv Hk' Hv').
    apply lookup_insert_eq.
Qed.

Lemma override_last_write_wins_witness :
  (∃ config,
     buildConfigParams (Args (Some "slurm") (Some "q1") ["account=A1"; "account=A2"] false)
       = Ok config
     ∧ config !! "account" = Some "-A A2")
  ∧ (∃ config,
       buildConfigParams
         (Args (Some "pbspro") (Some "q1") (["account=A1;walltime=2:00"] ++ ["account=A2"]) false)
         = Ok config
       ∧ config !! "account" = Some "-A A2").
Proof.
  split.
  - apply (proj1 override_last_write_wins "q1" false). discriminate.
  - apply (proj1 (proj2 override_last_write_wins)
             "pbspro" "q1" ["account=A1;walltime=2:00"] "account" "A2" false);
      [solve_supported | discriminate | reflexivity ..].
Defined.

(** C5: an override entry containing ";" is split into tokens that are
    each applied: for slurm, the single entry "account=X;timelimit=99:00"
    binds account to "-A X" and timelimit to "99:00". *)
Theorem override_semicolon_split (q : string) (nc : bool) :
  q ≠ EmptyString →
  ∃ config,
    buildConfigParams (Args (Some "slurm") (Some q) ["account=X;timelimit=99:00"] nc) = Ok config
    ∧ config !! "account" = Some "-A X"
    ∧ config !! "timelimit" = Some "99:00".
Proof.
  intros Hq. destruct q as [|c q]; [contradiction|].
  eexists. split; [reflexivity|]. split; vm_compute; reflexivity.
Qed.

Lemma override_semicolon_split_witness :
  ∃ config,
    buildConfigParams (Args (Some "slurm") (Some "q1") ["account=X;timelimit=99:00"] true)
      = Ok config
    ∧ config !! "account" = Some "-A X"
    ∧ config !! "timelimit" = Some "99:00".
Proof. apply (override_semicolon_split "q1" true). discriminate. Defined.

(** C6: for pbspro the bare token noselect binds cpu_and_mem to the
    literal "-l ncpus=${cpu} -l mem=${memory_mb}mb", in place of the pbspro
    default of that key; and an override entry whose tokens are all bare
    keys without an entry for the scheduler in the custom table leaves the
    mapping as it is without that entry. *)
Theorem bare_key_custom :
  (∀ q nc, q ≠ EmptyString →
     ∃ defaults config,
       default_config !! "pbspro" = Some defaults
       ∧ defaults !! "cpu_and_mem" = Some "-l select=1:ncpus=${cpu}:mem=${memory_mb}mb"
       ∧ buildConfigParams (Args (Some "pbspro") (Some q) ["noselect"] nc) = Ok config
       ∧ config !! "cpu_and_mem" = Some "-l ncpus=${cpu} -l mem=${memory_mb}mb")
  ∧ (∀ sched config r k,
       split "=" r = [k] → custom !! (k, sched) = None →
       set_resource sched config r = config)
  ∧ (∀ s q rss rs nc,
       supported s → q ≠ EmptyString → bare_unlisted s rs →
       buildConfigParams (Args (Some s) (Some q) (rss ++ [rs])%list nc)
       = buildConfigParams (Args (Some s) (Some q) rss nc)).
Proof.
  split; [|split].
  - intros q nc Hq. destruct q as [|c q]; [contradiction|].
    eexists. eexists. split; [reflexivity|].
    split; [vm_compute; reflexivity|].
    split; [reflexivity|]. vm_compute. reflexivity.
  - exact set_resource_bare.
  - intros s q rss rs nc Hsup Hq Hbare. unfold buildConfigParams.
    destruct (buildConfigParams_scheduled s q (rss ++ [rs])%list nc Hsup Hq) as (d & Hd & ->).
    destruct (buildConfigParams_scheduled s q rss nc Hsup Hq) as (d' & Hd' & ->).
    assert (d' = d) as -> by congruence. cbn.
    rewrite foldl_app. cbn [foldl]. now rewrite (set_resources_bare _ _ _ Hbare).
Qed.

Lemma bare_key_custom_witness :
  (∃ defaults config,
     default_config !! "pbspro" = Some defaults
     ∧ defaults !! "cpu_and_mem" = Some "-l select=1:ncpus=${cpu}:mem=${memory_mb}mb"
     ∧ buildConfigParams (Args (Some "pbspro") (Some "q1") ["noselect"] false) = Ok config
     ∧ config !! "cpu_and_mem" = Some "-l ncpus=${cpu} -l mem=${memory_mb}mb")
  ∧ set_resource "slurm" ∅ "noselect" = ∅
  ∧ buildConfigParams (Args (Some "slurm") (Some "q1") ["noselect;exclusive"] false)
    = buildConfigParams (Args (Some "slurm") (Some "q1") [] false).
Proof.
  split; [|split].
  - apply (proj1 bare_key_custom "q1" false). discriminate.
  - apply (proj1 (proj2 bare_key_custom) "slurm" ∅ "noselect" "noselect"); reflexivity.
  - apply (proj2 (proj2 bare_key_custom) "slurm" "q1" [] "noselect;exclusive" false).
    + solve_supported.
    + discriminate.
    + repeat constructor; eexists; (split; [reflexivity | vm_compute; reflexivity]).
Defined.

(** C8 as stated fails when an override assigns the key queue: the
    override is applied after the queue of the request has been stored. *)
Lemma queue_override_counterexample :
  supported "slurm" ∧ "q1" ≠ EmptyString
  ∧ ¬ queue_preserved (Args (Some "slurm") (Some "q1") ["queue=q2"] false).
Proof.
  split; [solve_supported|].
  split; [discriminate|].
  assert (∃ config,
            buildConfigParams (Args (Some "slurm") (Some "q1") ["queue=q2"] false) = Ok config
            ∧ config !! "queue" = Some "q2") as (config' & H' & Hq').
  { eexists. split; [reflexivity | vm_compute; reflexivity]. }
  intros (config & H & Hq). rewrite H' in H. injection H as <-.
  rewrite Hq' in Hq. discriminate.
Qed.

(** C8 (amended): for every supported scheduler, non-empty queue and list
    of overrides, [buildConfigParams] succeeds and the returned mapping has
    the key queue; the key is bound to the queue of the request whenever no
    override token has the form queue=value. *)
Theorem queue_bound (s q : string) (rss : list string) (nc : bool) :
  supported s → q ≠ EmptyString →
  (∃ config, buildConfigParams (Args (Some s) (Some q) rss nc) = Ok config
             ∧ is_Some (config !! "queue"))
  ∧ (overrides_key "queue" rss = false →
     queue_preserved (Args (Some s) (Some q) rss nc)).
Proof.
  intros Hsup Hq. unfold queue_preserved, buildConfigParams.
  destruct (buildConfigParams_scheduled s q rss nc Hsup Hq) as (d & Hd & ->).
  split.
  - eexists. split; [reflexivity|].
    apply foldl_set_resources_is_Some. rewrite lookup_insert_eq. eauto.
  - intros Ho. eexists. split; [reflexivity|]. cbn [queue].
    rewrite foldl_set_resources_other by (assumption || discriminate).
    apply lookup_insert_eq.
Qed.

Lemma queue_bound_witness :
  (∃ config,
     buildConfigParams (Args (Some "torque") (Some "batch") ["walltime=2:00;queue"] false)
       = Ok config
     ∧ is_Some (config !! "queue"))
  ∧ queue_preserved (Args (Some "torque") (Some "batch") ["walltime=2:00;queue"] false).
Proof.
  assert (Hsup : supported "torque") by (solve_supported).
  assert (Hq : "batch" ≠ EmptyString) by discriminate.
  split.
  - exact (proj1 (queue_bound "torque" "batch" ["walltime=2:00;queue"] false Hsup Hq)).
  - apply (proj2 (queue_bound "torque" "batch" ["walltime=2:00;queue"] false Hsup Hq)).
    reflexivity.
Defined.

(** ** Command line flags *)



(** ** Local mode *)

(** C10: when no scheduler is set, [_args_to_cromwell] returns the empty
    mapping, whatever the queue and the overrides are: the queue is not
    validated and the overrides are not read. *)
Theorem local_mode_empty (a : args) :
  scheduler a = None ∨ scheduler a = Some EmptyString →
  _args_to_cromwell a = Ok ([local_limit_flag; memory_flag], ∅, None)
  ∧ buildConfigParams a = Ok ∅.
Proof.
  intros H. apply truthy_false in H. unfold buildConfigParams.
  rewrite (args_to_cromwell_local a H). split; reflexivity.
Qed.

Lemma local_mode_empty_witness :
  _args_to_cromwell (Args None None ["account=A1;noselect"; "queue=q2"] true)
    = Ok ([local_limit_flag; memory_flag], ∅, None)
  ∧ buildConfigParams (Args None None ["account=A1;noselect"; "queue=q2"] true) = Ok ∅.
Proof.
  apply (local_mode_empty (Args None None ["account=A1;noselect"; "queue=q2"] true)).
  left. reflexivity.
Defined.

(** ** The [%] operator: its outcome depends on the keys present only *)

Lemma outcome_fmap (f : string → string) (r : pyresult string) :
  outcome (f <$> r) = outcome r.
Proof. destruct r; reflexivity. Qed.

Lemma outcome_ok (r : pyresult string) : outcome r = Ok () → ∃ text, r = Ok text.
Proof. destruct r as [t|e]; [eauto | discriminate]. Qed.

Lemma outcome_raise (r : pyresult string) (e : pyerror) : outcome r = Raise e → r = Raise e.
Proof. destruct r as [t|e']; [discriminate | now intros [= ->]]. Qed.

(** Adding keys to a mapping, or changing values, does not change what a
    formatting run does, unless the run stopped at a missing key. *)
Lemma format_from_outcome (d d' : gmap string string) :
  (∀ k, is_Some (d !! k) → is_Some (d' !! k)) →
  ∀ fmt st st', same_point st st' →
    (∀ k, outcome (format_from d st fmt) ≠ Raise (KeyError k)) →
    outcome (format_from d' st' fmt) = outcome (format_from d st fmt).
Proof.
  intros Hdom. induction fmt as [|c fmt IH]; intros st st' Hpt Hkey.
  - destruct st, st'; simpl in Hpt; try contradiction; reflexivity.
  - destruct st as [| |n k|v], st' as [| |n' k'|v']; simpl in Hpt; try contradiction;
      cbn [format_from] in *.
    + destruct (Ascii.eqb c "%").
      * now apply IH.
      * rewrite !outcome_fmap in *. now apply IH.
    + destruct (Ascii.eqb c "(").
      * apply IH; [split; reflexivity | assumption].
      * destruct (Ascii.eqb c "%"); [|reflexivity].
        rewrite !outcome_fmap in *. now apply IH.
    + destruct Hpt as [<- <-].
      destruct (Ascii.eqb c ")").
      * destruct n as [|n].
        -- destruct (d !! k) as [v|] eqn:Hk.
           ++ destruct (Hdom k) as [v' ->]; [rewrite Hk; eauto|]. now apply IH.
           ++ exfalso. now apply (Hkey k).
        -- apply IH; [split; reflexivity | assumption].
      * destruct (Ascii.eqb c "("); (apply IH; [split; reflexivity | assumption]).
    + destruct (Ascii.eqb c "s"); [|reflexivity].
      rewrite !outcome_fmap in *. now apply IH.
Qed.

Lemma blank_lookup (ks : list string) (k : string) :
  is_Some (blank ks !! k) → k ∈ ks.
Proof.
  unfold blank. induction ks as [|x ks IH]; simpl.
  - rewrite lookup_empty. now intros [? ?].
  - rewrite lookup_insert_is_Some', elem_of_cons. intros [-> | H]; auto.
Qed.

(** The outcome of [fmt % d] can be read off a run on the blank mapping
    over any list of keys that [d] has, if that run misses no key. *)
Lemma pyformat_outcome (ks : list string) (d : gmap string string) (fmt : string) :
  Forall (λ k, is_Some (d !! k)) ks →
  (∀ k, outcome (pyformat fmt (blank ks)) ≠ Raise (KeyError k)) →
  outcome (pyformat fmt d) = outcome (pyformat fmt (blank ks)).
Proof.
  intros Hks Hkey. unfold pyformat. apply format_from_outcome.
  - intros k Hk. apply blank_lookup in Hk. rewrite Forall_forall in Hks. auto.
  - exact I.
  - exact Hkey.
Qed.

(** ** Filling the templates *)

Ltac key_present :=
  unfold update; apply lookup_union_is_Some;
  solve [ left; vm_compute; eauto
        | right; apply foldl_set_resources_is_Some; vm_compute; eauto ].

Ltac keys_present := repeat (apply List.Forall_cons; [key_present|]); apply List.Forall_nil.

Lemma CROMWELL_CONFIG_ok (a : args) (work_dir hpc : string) :
  ∃ text,
    pyformat CROMWELL_CONFIG
      (update (list_to_map [("hpc", hpc); ("work_dir", work_dir)]) (std_args a)) = Ok text.
Proof.
  apply outcome_ok.
  rewrite (pyformat_outcome
             ["hpc"; "work_dir"; "docker_attrs"; "submit_docker"; "cwl_attrs"; "filesystem"]).
  - vm_compute. reflexivity.
  - repeat (apply List.Forall_cons;
            [unfold update; apply lookup_union_is_Some;
             solve [left; vm_compute; eauto | right; vm_compute; eauto]|]).
    apply List.Forall_nil.
  - intros k. vm_compute. discriminate.
Qed.

Lemma HPC_slurm_ok (a : args) (q : string) (rss : list string) (defaults : gmap string string) :
  default_config !! "slurm" = Some defaults →
  ∃ text,
    pyformat HPC_slurm
      (update (foldl (set_resources "slurm") (<["queue" := q]> defaults) rss) (std_args a))
    = Ok text.
Proof.
  intros [= <-]. apply outcome_ok.
  rewrite (pyformat_outcome
             ["queue"; "timelimit"; "account"; "docker_attrs"; "cwl_attrs"; "filesystem"]).
  - vm_compute. reflexivity.
  - keys_present.
  - intros k. vm_compute. discriminate.
Qed.

Lemma HPC_torque_ok (a : args) (q : string) (rss : list string) (defaults : gmap string string) :
  default_config !! "torque" = Some defaults →
  ∃ text,
    pyformat HPC_torque
      (update (foldl (set_resources "torque") (<["queue" := q]> defaults) rss) (std_args a))
    = Ok text.
Proof.
  intros [= <-]. apply outcome_ok.
  rewrite (pyformat_outcome
             ["queue"; "account"; "walltime"; "docker_attrs"; "cwl_attrs"; "filesystem"]).
  - vm_compute. reflexivity.
  - keys_present.
  - intros k. vm_compute. discriminate.
Qed.

Lemma HPC_pbspro_ok (a : args) (q : string) (rss : list string) (defaults : gmap string string) :
  default_config !! "pbspro" = Some defaults →
  ∃ text,
    pyformat HPC_pbspro
      (update (foldl (set_resources "pbspro") (<["queue" := q]> defaults) rss) (std_args a))
    = Ok text.
Proof.
  intros [= <-]. apply outcome_ok.
  rewrite (pyformat_outcome
             ["queue"; "account"; "walltime"; "cpu_and_mem"; "docker_attrs"; "cwl_attrs";
              "filesystem"]).
  - vm_compute. reflexivity.
  - keys_present.
  - intros k. vm_compute. discriminate.
Qed.

(** The sge template cannot be filled: its second key is opened by [%(]
    and never closed. *)
Lemma HPC_sge_raises (a : args) (q : string) (rss : list string) (defaults : gmap string string) :
  pyformat HPC_sge
    (update (foldl (set_resources "sge") (<["queue" := q]> defaults) rss) (std_args a))
  = Raise (ValueError "incomplete format key").
Proof.
  apply outcome_raise.
  rewrite (pyformat_outcome ["queue"]).
  - vm_compute. reflexivity.
  - apply List.Forall_cons; [|apply List.Forall_nil].
    unfold update. apply lookup_union_is_Some. right.
    apply foldl_set_resources_is_Some. rewrite lookup_insert_eq. eauto.
  - intros k. vm_compute. discriminate.
Qed.

(** ** Rendering the configuration file *)

Lemma bind_ok {A B : Type} (a : A) (k : A → pyresult B) : (Ok a ≫= k) = k a.
Proof. reflexivity. Qed.

Lemma bind_raise {A B : Type} (e : pyerror) (k : A → pyresult B) : (Raise e ≫= k) = Raise e.
Proof. reflexivity. Qed.

Lemma main_config_scheduled (s q : string) (rss : list string) (nc : bool) (work_dir : string) :
  supported s → q ≠ EmptyString →
  ∃ defaults,
    default_config !! s = Some defaults ∧
    main_config (Args (Some s) (Some q) rss nc) work_dir =
      (hpc ← hpc_block (Some s)
               (update (foldl (set_resources s) (<["queue" := q]> defaults) rss)
                       (std_args (Args (Some s) (Some q) rss nc)));
       Ok (update (list_to_map [("hpc", hpc); ("work_dir", work_dir)])
                  (std_args (Args (Some s) (Some q) rss nc)))).
Proof.
  intros Hsup Hq.
  destruct (buildConfigParams_scheduled s q rss nc Hsup Hq) as (d & Hd & H).
  exists d. split; [assumption|]. unfold main_config. rewrite H, bind_ok. reflexivity.
Qed.

Lemma create_cromwell_config_raise (a : args) (work_dir : string) (fs : filesystem)
    (e : pyerror) :
  main_config a work_dir = Raise e →
  create_cromwell_config a work_dir fs = (Raise e, fs) ∧ render a work_dir = Raise e.
Proof.
  intros H. unfold create_cromwell_config, render. rewrite H, bind_raise. split; reflexivity.
Qed.

Lemma main_config_shape (a : args) (work_dir : string) (mc : gmap string string) :
  main_config a work_dir = Ok mc →
  ∃ hpc, mc = update (list_to_map [("hpc", hpc); ("work_dir", work_dir)]) (std_args a).
Proof.
  unfold main_config.
  destruct (_args_to_cromwell a) as [[[cl conf] sched]|e]; [|discriminate].
  rewrite bind_ok.
  destruct (hpc_block sched _) as [hpc|e]; [|discriminate].
  rewrite bind_ok. intros [= <-]. exists hpc. reflexivity.
Qed.

(** For slurm, torque and pbspro the file is rendered, whatever the
    overrides are. *)
Lemma render_ok (s : string) (c : ascii) (q : string) (rss : list string) (nc : bool)
    (work_dir : string) :
  s ∈ ["slurm"; "torque"; "pbspro"] →
  ∃ text, render (Args (Some s) (Some (String c q)) rss nc) work_dir = Ok text.
Proof.
  intros Hs. unfold render.
  assert (Hsup : supported s).
  { revert Hs. unfold supported. rewrite !elem_of_cons, !elem_of_nil. tauto. }
  destruct (main_config_scheduled s (String c q) rss nc work_dir Hsup) as (d & Hd & ->);
    [discriminate|].
  assert (∃ hpc, hpc_block (Some s)
            (update (foldl (set_resources s) (<["queue" := String c q]> d) rss)
               (std_args (Args (Some s) (Some (String c q)) rss nc))) = Ok hpc) as [hpc ->].
  { revert Hs Hd. rewrite !elem_of_cons, elem_of_nil.
    intros [-> | [-> | [-> | []]]] Hd; unfold hpc_block; cbn [truthy default from_option id].
    - change (HPC_CONFIGS !! "slurm") with (Some HPC_slurm). apply HPC_slurm_ok, Hd.
    - change (HPC_CONFIGS !! "torque") with (Some HPC_torque). apply HPC_torque_ok, Hd.
    - change (HPC_CONFIGS !! "pbspro") with (Some HPC_pbspro). apply HPC_pbspro_ok, Hd. }
  rewrite !bind_ok. apply CROMWELL_CONFIG_ok.
Qed.

(** C1: for the scheduler lsf with a non-empty queue, [_args_to_cromwell]
    accepts the request, but the table of backend templates has no entry
    for lsf: [create_cromwell_config] raises [KeyError] at the lookup and
    writes nothing. *)
Theorem lsf_render_raises (c : ascii) (q : string) (rss : list string) (nc : bool)
    (work_dir : string) (fs : filesystem) :
  is_ok (_args_to_cromwell (Args (Some "lsf") (Some (String c q)) rss nc)) = true
  ∧ HPC_CONFIGS !! "lsf" = None
  ∧ create_cromwell_config (Args (Some "lsf") (Some (String c q)) rss nc) work_dir fs
    = (Raise (KeyError "lsf"), fs)
  ∧ render (Args (Some "lsf") (Some (String c q)) rss nc) work_dir = Raise (KeyError "lsf").
Proof.
  split; [reflexivity|]. split; [vm_compute; reflexivity|].
  apply create_cromwell_config_raise.
  destruct (main_config_scheduled "lsf" (String c q) rss nc work_dir) as (d & Hd & ->);
    [solve_supported | discriminate |].
  unfold hpc_block. cbn [truthy default from_option id].
  change (HPC_CONFIGS !! "lsf") with (@None string). apply bind_raise.
Qed.

(** C2: for the scheduler sge with a non-empty queue, filling the sge
    template fails: [create_cromwell_config] raises a [ValueError] that is
    neither of the two validation failures, and writes nothing. *)
Theorem sge_render_raises (c : ascii) (q : string) (rss : list string) (nc : bool)
    (work_dir : string) (fs : filesystem) :
  create_cromwell_config (Args (Some "sge") (Some (String c q)) rss nc) work_dir fs
    = (Raise (ValueError "incomplete format key"), fs)
  ∧ render (Args (Some "sge") (Some (String c q)) rss nc) work_dir
    = Raise (ValueError "incomplete format key")
  ∧ ValueError "incomplete format key" ≠ MissingQueueError
  ∧ ∀ s, ValueError "incomplete format key" ≠ UnsupportedSchedulerError s.
Proof.
  assert (Hmc : main_config (Args (Some "sge") (Some (String c q)) rss nc) work_dir
                = Raise (ValueError "incomplete format key")).
  { destruct (main_config_scheduled "sge" (String c q) rss nc work_dir) as (d & Hd & ->);
      [solve_supported | discriminate |].
    unfold hpc_block. cbn [truthy default from_option id].
    change (HPC_CONFIGS !! "sge") with (Some HPC_sge). cbv beta iota.
    rewrite HPC_sge_raises. apply bind_raise. }
  destruct (create_cromwell_config_raise _ work_dir fs _ Hmc) as [H1 H2].
  split; [exact H1 | split; [exact H2 | split; [discriminate | intros s; discriminate]]].
Qed.

(** ** The file and the environment *)

Lemma set_file_twice (path text text' : string) (fs : filesystem) :
  set_file path text (set_file path text' fs) = set_file path text fs.
Proof. unfold set_file. cbn [files open_error write_error]. now rewrite insert_insert_eq. Qed.

(** What [create_cromwell_config] does, in terms of the text [render]
    computes and of the answers of the environment: nothing is touched
    when the text cannot be computed or the file cannot be opened, and a
    failed write leaves the file empty. *)
Lemma create_cromwell_config_render (a : args) (work_dir : string) (fs : filesystem) :
  create_cromwell_config a work_dir fs
  = match render a work_dir with
    | Raise e => (Raise e, fs)
    | Ok text =>
        match open_error fs (path_join work_dir "bcbio-cromwell.conf") with
        | Some e => (Raise e, fs)
        | None =>
            match write_error fs (path_join work_dir "bcbio-cromwell.conf") text with
            | Some e => (Raise e, set_file (path_join work_dir "bcbio-cromwell.conf") EmptyString fs)
            | None => (Ok (path_join work_dir "bcbio-cromwell.conf"),
                       set_file (path_join work_dir "bcbio-cromwell.conf") text fs)
            end
        end
    end.
Proof.
  unfold create_cromwell_config, render.
  destruct (main_config a work_dir) as [mc|e] eqn:Hmc; [|now rewrite bind_raise].
  rewrite bind_ok. destruct (main_config_shape a work_dir mc Hmc) as [hpc ->].
  destruct (CROMWELL_CONFIG_ok a work_dir hpc) as [text Htext].
  unfold write_config. rewrite Htext.
  destruct (open_error fs _); [reflexivity|].
  cbn [set_file write_error].
  destruct (write_error fs _ text); [reflexivity|].
  now rewrite set_file_twice.
Qed.

(** ** Calls leave nothing behind *)

Lemma default_config_literal_eq :
  default_config = list_to_map Store.default_config_literal.
Proof. reflexivity. Qed.

Lemma preserved_refl (m : Store.memory) : Store.preserved m m.
Proof. split; reflexivity. Qed.

Lemma preserved_trans (m1 m2 m3 : Store.memory) :
  Store.preserved m1 m2 → Store.preserved m2 m3 → Store.preserved m1 m3.
Proof. intros [H1 H1'] [H2 H2']. split; [congruence | now transitivity (Store.objects m2)]. Qed.

Lemma preserved_with_object (m m' : Store.memory) (l : Store.loc) (d : gmap string string) :
  Store.preserved m m' → Store.objects m !! l = None →
  Store.preserved m (Store.with_object l d m').
Proof.
  intros [H1 H2] Hl. split; [exact H1|].
  cbn [Store.with_object Store.objects]. now apply insert_subseteq_r.
Qed.

Lemma with_object_twice (l : Store.loc) (d d' : gmap string string) (m : Store.memory) :
  Store.with_object l d (Store.with_object l d' m) = Store.with_object l d m.
Proof.
  unfold Store.with_object. cbn [Store.objects Store.module_HPC_CONFIGS].
  now rewrite insert_insert_eq.
Qed.

Lemma with_object_same (l : Store.loc) (d : gmap string string) (m : Store.memory) :
  Store.objects m !! l = Some d → Store.with_object l d m = m.
Proof.
  intros H. destruct m as [g o]. unfold Store.with_object. cbn [Store.objects] in *.
  now rewrite insert_id.
Qed.

Lemma fresh_unused (m : Store.memory) :
  Store.objects m !! fresh (dom (Store.objects m)) = None.
Proof. apply not_elem_of_dom, is_fresh. Qed.

Lemma new_dicts_run (entries : list (string * gmap string string)) :
  ∀ m, ∃ table m',
    Store.new_dicts entries m = (Ok table, m')
    ∧ Store.preserved m m'
    ∧ ∀ name,
        match table !! name with
        | Some l =>
            Store.objects m !! l = None
            ∧ ∃ d, (list_to_map entries : gmap string (gmap string string)) !! name = Some d
                   ∧ Store.objects m' !! l = Some d
        | None => (list_to_map entries : gmap string (gmap string string)) !! name = None
        end.
Proof.
  induction entries as [|[n d] rest IH]; intros m.
  - exists ∅, m. split; [reflexivity|]. split; [apply preserved_refl|].
    intros name. rewrite lookup_empty. apply lookup_empty.
  - set (l := fresh (dom (Store.objects m))).
    destruct (IH (Store.with_object l d m)) as (table & m' & Hrun & Hpres & Htable).
    exists (<[n := l]> table), m'.
    assert (Hl : Store.objects m !! l = None) by apply fresh_unused.
    assert (Hm : Store.preserved m (Store.with_object l d m))
      by (apply preserved_with_object; [apply preserved_refl | assumption]).
    split; [|split].
    + cbn [Store.new_dicts]. unfold mbind, Store.st_bind, Store.new_dict. fold l.
      change (Store.Memory _ _) with (Store.with_object l d m).
      unfold mbind, Store.st_bind in Hrun. rewrite Hrun. reflexivity.
    + now apply (preserved_trans _ (Store.with_object l d m)).
    + intros name. cbn [list_to_map foldr fst snd]. rewrite !lookup_insert.
      case_decide as Hn.
      * split; [assumption|]. exists d. split; [reflexivity|].
        apply (lookup_weaken (Store.objects (Store.with_object l d m))); [|apply Hpres].
        apply lookup_insert_eq.
      * specialize (Htable name). destruct (table !! name) as [l'|]; [|assumption].
        destruct Htable as (Hl' & d' & Hd' & Hobj). split; [|eauto].
        apply (lookup_weaken_None _ (Store.objects (Store.with_object l d m)));
          [assumption | apply Hm].
Qed.

Lemma setitem_run (l : Store.loc) (k v : string) (d : gmap string string) (m : Store.memory) :
  Store.objects m !! l = Some d →
  Store.setitem l k v m = (Ok (), Store.with_object l (<[k := v]> d) m).
Proof.
  intros H. unfold Store.setitem, Store.with_object. do 2 f_equal.
  apply map_eq. intros j. rewrite lookup_alter, lookup_insert.
  case_decide; [subst; now rewrite H | reflexivity].
Qed.

Lemma dict_update_run (l : Store.loc) (other d : gmap string string) (m : Store.memory) :
  Store.objects m !! l = Some d →
  Store.dict_update l other m = (Ok (), Store.with_object l (update d other) m).
Proof.
  intros H. unfold Store.dict_update, Store.with_object. do 2 f_equal.
  apply map_eq. intros j. rewrite lookup_alter, lookup_insert.
  case_decide; [subst; now rewrite H | reflexivity].
Qed.

Lemma set_resource_run (sched : string) (l : Store.loc) (r : string)
    (d : gmap string string) (m : Store.memory) :
  Store.objects m !! l = Some d →
  Store.set_resource sched l r m = (Ok (), Store.with_object l (set_resource sched d r) m).
Proof.
  intros H. unfold Store.set_resource, set_resource.
  destruct (split "=" r) as [|x [|y [|z t]]];
    try (unfold mret, Store.st_ret; now rewrite (with_object_same _ _ _ H)).
  - destruct (custom !! (x, sched)) as [[key val]|].
    + now apply setitem_run.
    + unfold mret, Store.st_ret. now rewrite (with_object_same _ _ _ H).
  - now apply setitem_run.
Qed.

Lemma with_object_lookup (l : Store.loc) (d : gmap string string) (m : Store.memory) :
  Store.objects (Store.with_object l d m) !! l = Some d.
Proof. apply lookup_insert_eq. Qed.

Lemma for_each_tokens_run (sched : string) (l : Store.loc) (tokens : list string) :
  ∀ d m, Store.objects m !! l = Some d →
    Store.for_each (Store.set_resource sched l) tokens m
    = (Ok (), Store.with_object l (foldl (set_resource sched) d tokens) m).
Proof.
  induction tokens as [|r tokens IH]; intros d m H; cbn [Store.for_each foldl].
  - unfold mret, Store.st_ret. now rewrite (with_object_same _ _ _ H).
  - unfold mbind, Store.st_bind. rewrite (set_resource_run _ _ _ _ _ H).
    rewrite (IH (set_resource sched d r)) by apply with_object_lookup.
    now rewrite with_object_twice.
Qed.

Lemma for_each_entries_run (sched : string) (l : Store.loc) (rss : list string) :
  ∀ d m, Store.objects m !! l = Some d →
    Store.for_each (λ rs, Store.for_each (Store.set_resource sched l) (split ";" rs)) rss m
    = (Ok (), Store.with_object l (foldl (set_resources sched) d rss) m).
Proof.
  induction rss as [|rs rss IH]; intros d m H; cbn [Store.for_each foldl].
  - unfold mret, Store.st_ret. now rewrite (with_object_same _ _ _ H).
  - unfold mbind, Store.st_bind. rewrite (for_each_tokens_run _ _ _ _ _ H).
    rewrite (IH (set_resources sched d rs)) by apply with_object_lookup.
    now rewrite with_object_twice.
Qed.

(** [_args_to_cromwell] over the store does what the function over
    values says, in a dict of its own, and changes nothing there was. *)
Lemma args_to_cromwell_run (a : args) (m : Store.memory) :
  Store.preserved m (Store._args_to_cromwell a m).2
  ∧ Store.returns m (Store._args_to_cromwell a m) (_args_to_cromwell a).
Proof.
  destruct (new_dicts_run Store.default_config_literal m)
    as (table & m1 & Hrun & Hpres & Htable).
  remember (Store._args_to_cromwell a m) as run eqn:E.
  unfold Store._args_to_cromwell in E. cbv zeta in E.
  unfold mbind at 1 in E. unfold Store.st_bind at 1 in E. rewrite Hrun in E.
  unfold _args_to_cromwell, Store.returns. cbv zeta.
  destruct (truthy (scheduler a)).
  - specialize (Htable (default EmptyString (scheduler a))).
    rewrite <- default_config_literal_eq in Htable.
    destruct (table !! default EmptyString (scheduler a)) as [l|].
    + destruct Htable as (Hl & d & -> & Hobj).
      destruct (truthy (queue a)).
      * unfold mbind, Store.st_bind in E.
        rewrite (setitem_run _ _ _ _ _ Hobj) in E.
        rewrite (for_each_entries_run _ _ _ _ _ (with_object_lookup _ _ _)) in E.
        rewrite with_object_twice in E. unfold mret, Store.st_ret in E.
        subst run. cbn [fst snd].
        split; [now apply preserved_with_object|].
        split; [reflexivity|]. split; [reflexivity|]. split; [assumption|].
        apply with_object_lookup.
      * unfold Store.raise in E. subst run. cbn [fst snd].
        split; [assumption | reflexivity].
    + rewrite Htable. unfold Store.raise in E. subst run. cbn [fst snd].
      split; [assumption | reflexivity].
  - unfold mbind, Store.st_bind, Store.new_dict, mret, Store.st_ret in E.
    change (Store.Memory _ _)
      with (Store.with_object (fresh (dom (Store.objects m1))) ∅ m1) in E.
    subst run. cbn [fst snd].
    assert (Hl : Store.objects m !! fresh (dom (Store.objects m1)) = None).
    { apply (lookup_weaken_None _ (Store.objects m1)); [apply fresh_unused | apply Hpres]. }
    split; [now apply preserved_with_object|].
    split; [reflexivity|]. split; [reflexivity|]. split; [assumption|].
    apply with_object_lookup.
Qed.

(** Up to the [with open(...)] statement, [create_cromwell_config] over
    the store computes the mapping the function over values computes, and
    changes nothing there was. *)
Lemma main_config_run (a : args) (work_dir : string) (m : Store.memory) :
  Store.loaded m →
  (Store.main_config a work_dir m).1 = main_config a work_dir
  ∧ Store.preserved m (Store.main_config a work_dir m).2.
Proof.
  intros Hloaded.
  destruct (args_to_cromwell_run a m) as [Hpres Hret].
  remember (Store.main_config a work_dir m) as run eqn:E.
  unfold Store.main_config in E. unfold mbind at 1 in E. unfold Store.st_bind at 1 in E.
  unfold main_config. unfold Store.returns in Hret.
  destruct (Store._args_to_cromwell a m) as [[[[cl l] s]|e] m1]; cbn [fst snd] in *.
  - destruct (_args_to_cromwell a) as [[[cl' config] s']|e']; [|contradiction].
    destruct Hret as (<- & <- & Hl & Hobj). rewrite bind_ok.
    unfold mbind at 1 in E. unfold Store.st_bind at 1 in E.
    rewrite (dict_update_run _ _ _ _ Hobj) in E.
    set (m2 := Store.with_object l (update config (std_args a)) m1) in *.
    assert (Hpres2 : Store.preserved m m2) by now apply preserved_with_object.
    assert (Htable : Store.module_HPC_CONFIGS m2 = HPC_CONFIGS)
      by (destruct Hpres2 as [-> _]; exact Hloaded).
    assert (Hread : Store.objects m2 !! l = Some (update config (std_args a)))
      by apply with_object_lookup.
    clearbody m2. unfold hpc_block.
    unfold mbind, Store.st_bind, mret, Store.st_ret in E.
    destruct (truthy s).
    + unfold Store.global_HPC_CONFIGS in E. rewrite Htable in E.
      destruct (HPC_CONFIGS !! default EmptyString s) as [template|].
      * unfold Store.read, Store.lift in E. rewrite Hread in E.
        cbn [default from_option id] in E.
        destruct (pyformat template (update config (std_args a))) as [hpc|e];
          subst run; cbn [fst snd]; (split; [reflexivity | assumption]).
      * unfold Store.raise in E. subst run. cbn [fst snd].
        split; [reflexivity | assumption].
    + subst run. cbn [fst snd]. split; [reflexivity | assumption].
  - destruct (_args_to_cromwell a) as [[[cl' config] s']|e']; [contradiction|].
    subst e' run. cbn [fst snd]. split; [reflexivity | assumption].
Qed.

(** [create_cromwell_config] over the store does to the files what the
    function over values does, and changes nothing there was in the
    memory. *)
Lemma create_cromwell_config_run (a : args) (work_dir : string) (m : Store.memory)
    (fs : filesystem) :
  Store.loaded m →
  (Store.create_cromwell_config a work_dir m fs).1.1 = (create_cromwell_config a work_dir fs).1
  ∧ (Store.create_cromwell_config a work_dir m fs).2 = (create_cromwell_config a work_dir fs).2
  ∧ Store.preserved m (Store.create_cromwell_config a work_dir m fs).1.2.
Proof.
  intros Hloaded. destruct (main_config_run a work_dir m Hloaded) as [Hmc Hpres].
  unfold Store.create_cromwell_config, create_cromwell_config.
  destruct (Store.main_config a work_dir m) as [[mc|e] m1]; cbn [fst snd] in *;
    rewrite <- Hmc.
  - destruct (write_config _ mc fs) as [r fs']. cbn [fst snd]. auto.
  - cbn [fst snd]. auto.
Qed.

(** A second call with the same request and work directory, on the files
    the first has left, does what the first did and leaves the files as
    they are. *)
Lemma create_cromwell_config_again (a : args) (work_dir : string) (fs : filesystem) :
  create_cromwell_config a work_dir (create_cromwell_config a work_dir fs).2
  = create_cromwell_config a work_dir fs.
Proof.
  rewrite (create_cromwell_config_render a work_dir fs).
  destruct (render a work_dir) as [text|e] eqn:Hrender.
  - destruct (open_error fs _) as [e|] eqn:Hopen.
    + cbn [snd]. rewrite create_cromwell_config_render, Hrender, Hopen. reflexivity.
    + destruct (write_error fs _ text) as [e|] eqn:Hwrite; cbn [snd];
        rewrite create_cromwell_config_render, Hrender;
        cbn [set_file open_error write_error]; rewrite Hopen, Hwrite;
        fold (set_file (path_join work_dir "bcbio-cromwell.conf") EmptyString fs);
        fold (set_file (path_join work_dir "bcbio-cromwell.conf") text fs);
        now rewrite set_file_twice.
  - cbn [snd]. rewrite create_cromwell_config_render, Hrender. reflexivity.
Qed.

(** C9: rendering is deterministic, and [_args_to_cromwell] has no side
    effects.  With the dicts of the code as objects in a memory:
    [_args_to_cromwell] leaves the module dict and every dict there was as
    they are, and what it returns is what the function of the request
    alone says, in a dict that did not exist before.  When the module is
    loaded, [create_cromwell_config] changes nothing in the memory either,
    its result and the files it leaves are those of the function of the
    request, the work directory and the file system alone; a second call
    with the same arguments gives the same result and leaves the files as
    the first did; and after a successful call the file holds the text
    [render] computes from the request and the work directory. *)
Theorem render_deterministic (a : args) (work_dir : string) (m : Store.memory)
    (fs : filesystem) :
  Store.preserved m (Store._args_to_cromwell a m).2
  ∧ Store.returns m (Store._args_to_cromwell a m) (_args_to_cromwell a)
  ∧ (Store.loaded m →
     Store.preserved m (Store.create_cromwell_config a work_dir m fs).1.2
     ∧ (Store.create_cromwell_config a work_dir m fs).1.1
       = (create_cromwell_config a work_dir fs).1
     ∧ (Store.create_cromwell_config a work_dir m fs).2
       = (create_cromwell_config a work_dir fs).2
     ∧ (Store.again a work_dir m fs).1.1 = (Store.create_cromwell_config a work_dir m fs).1.1
     ∧ (Store.again a work_dir m fs).2 = (Store.create_cromwell_config a work_dir m fs).2
     ∧ ∀ path, (Store.create_cromwell_config a work_dir m fs).1.1 = Ok path →
         ∃ text, render a work_dir = Ok text
                 ∧ files (Store.create_cromwell_config a work_dir m fs).2 !! path = Some text).
Proof.
  split; [apply args_to_cromwell_run|]. split; [apply args_to_cromwell_run|].
  intros Hloaded.
  destruct (create_cromwell_config_run a work_dir m fs Hloaded) as (Hr & Hfs & Hpres).
  assert (Hloaded' : Store.loaded (Store.create_cromwell_config a work_dir m fs).1.2).
  { unfold Store.loaded in *. destruct Hpres as [-> _]. exact Hloaded. }
  destruct (create_cromwell_config_run a work_dir _
              (Store.create_cromwell_config a work_dir m fs).2 Hloaded')
    as (Hr' & Hfs' & _).
  fold (Store.again a work_dir m fs) in Hr', Hfs'.
  rewrite Hfs, create_cromwell_config_again in Hr', Hfs'.
  split; [assumption|]. split; [assumption|]. split; [assumption|].
  split; [congruence|]. split; [congruence|].
  intros path. rewrite Hr, Hfs, create_cromwell_config_render.
  destruct (render a work_dir) as [text|e]; [|discriminate].
  destruct (open_error fs _); [discriminate|].
  destruct (write_error fs _ text); [discriminate|].
  cbn [fst snd]. intros [= <-]. exists text. split; [reflexivity|].
  apply lookup_insert_eq.
Qed.

Lemma render_deterministic_witness :
  Store.loaded Store.memory_in_use
  ∧ (Store.again (Args (Some "slurm") (Some "q1") ["account=A1"] false) "/work"
       Store.memory_in_use no_files).1.1
    = (Store.create_cromwell_config (Args (Some "slurm") (Some "q1") ["account=A1"] false)
         "/work" Store.memory_in_use no_files).1.1
  ∧ (Store.again (Args (Some "slurm") (Some "q1") ["account=A1"] false) "/work"
       Store.memory_in_use no_files).2
    = (Store.create_cromwell_config (Args (Some "slurm") (Some "q1") ["account=A1"] false)
         "/work" Store.memory_in_use no_files).2.
Proof.
  split; [reflexivity|].
  destruct (proj2 (proj2 (render_deterministic
                            (Args (Some "slurm") (Some "q1") ["account=A1"] false)
                            "/work" Store.memory_in_use no_files)) eq_refl)
    as (_ & _ & _ & H1 & H2 & _).
  split; assumption.
Defined.

(** * Further properties *)

(** ** Splitting, counted *)

Lemma split_length (sep : ascii) (s : string) :
  length (split sep s) = S (count_char sep s).
Proof.
  induction s as [|x s IH]; simpl; [reflexivity|].
  destruct (Ascii.eqb x sep); simpl; [now rewrite IH|].
  destruct (split sep s); simpl in *; [discriminate | assumption].
Qed.

Lemma split_pieces (sep : ascii) (s : string) :
  Forall (λ p, has_char sep p = false) (split sep s).
Proof.
  induction s as [|x s IH]; simpl.
  - repeat constructor.
  - destruct (Ascii.eqb x sep) eqn:Hx.
    + constructor; [reflexivity | assumption].
    + destruct (split sep s) as [|h t]; [repeat constructor; simpl; now rewrite Hx|].
      inversion IH as [|? ? Hh Ht]; subst. constructor; [|assumption].
      simpl. now rewrite Hx, Hh.
Qed.

(** ** The result as a function of the override list *)

(** What [_args_to_cromwell] returns, in terms of the configuration the
    overrides are folded into. *)
Lemma args_to_cromwell_fold (sch qu : option string) (rss : list string) (nc : bool) :
  _args_to_cromwell (Args sch qu rss nc) =
    if truthy sch then
      match default_config !! default EmptyString sch with
      | None => Raise (UnsupportedSchedulerError (default EmptyString sch))
      | Some defaults =>
          if truthy qu then
            Ok ([memory_flag; "-Dbackend.default=" +:+ upper (default EmptyString sch)],
                foldl (set_resources (default EmptyString sch))
                      (<["queue" := default EmptyString qu]> defaults) rss,
                Some (default EmptyString sch))
          else Raise MissingQueueError
      end
    else Ok ([local_limit_flag; memory_flag], ∅, None).
Proof. reflexivity. Qed.

(** Two override lists that act alike on every configuration give the
    same result. *)
Lemma args_to_cromwell_ext (sch qu : option string) (rss rss' : list string) (nc : bool) :
  (∀ config, foldl (set_resources (default EmptyString sch)) config rss
             = foldl (set_resources (default EmptyString sch)) config rss') →
  _args_to_cromwell (Args sch qu rss nc) = _args_to_cromwell (Args sch qu rss' nc).
Proof.
  intros H. rewrite !args_to_cromwell_fold.
  destruct (truthy sch); [|reflexivity].
  destruct (default_config !! default EmptyString sch); [|reflexivity].
  destruct (truthy qu); [|reflexivity]. now rewrite H.
Qed.

Lemma foldl_set_resources_drop (sched rs : string) (rss1 rss2 : list string) :
  (∀ config, set_resources sched config rs = config) →
  ∀ config, foldl (set_resources sched) config (rss1 ++ rs :: rss2)
            = foldl (set_resources sched) config (rss1 ++ rss2).
Proof.
  intros H config. rewrite !foldl_app. cbn [foldl]. now rewrite H.
Qed.

Lemma set_resource_many (sched : string) (config : gmap string string) (r : string) :
  (2 ≤ count_char "=" r)%nat → set_resource sched config r = config.
Proof.
  intros H. unfold set_resource.
  pose proof (split_length "=" r) as Hl.
  destruct (split "=" r) as [|x [|y [|z l]]]; simpl in Hl; try reflexivity; lia.
Qed.

Lemma set_resources_many (sched : string) (config : gmap string string) (rs : string) :
  Forall (λ r, (2 ≤ count_char "=" r)%nat) (split ";" rs) →
  set_resources sched config rs = config.
Proof.
  unfold set_resources. generalize (split ";" rs) as l.
  induction l as [|r l IH]; intros H; simpl; [reflexivity|].
  inversion H as [|? ? Hr Hl]; subst.
  rewrite (set_resource_many _ _ _ Hr). now apply IH.
Qed.

(** X1: a token with two or more "=" is ignored: an override entry made
    of such tokens can be dropped from the list, wherever it stands,
    without changing what [_args_to_cromwell] returns. *)
Theorem malformed_override_ignored (sch qu : option string) (rss1 rss2 : list string)
    (rs : string) (nc : bool) :
  Forall (λ r, (2 ≤ count_char "=" r)%nat) (split ";" rs) →
  _args_to_cromwell (Args sch qu (rss1 ++ rs :: rss2) nc)
  = _args_to_cromwell (Args sch qu (rss1 ++ rss2) nc).
Proof.
  intros H. apply args_to_cromwell_ext.
  apply foldl_set_resources_drop. intros config. now apply set_resources_many.
Qed.

Lemma malformed_override_ignored_witness :
  _args_to_cromwell
    (Args (Some "slurm") (Some "q1") (["account=A1"] ++ "a=b=c;x==y" :: ["timelimit=2:00"]) false)
  = _args_to_cromwell
      (Args (Some "slurm") (Some "q1") (["account=A1"] ++ ["timelimit=2:00"]) false).
Proof.
  apply (malformed_override_ignored (Some "slurm") (Some "q1")
           ["account=A1"] ["timelimit=2:00"] "a=b=c;x==y" false).
  vm_compute. repeat constructor.
Defined.

Lemma set_resources_token (sched : string) (config : gmap string string) (r : string) :
  has_char ";" r = false → set_resources sched config r = set_resource sched config r.
Proof. intros H. unfold set_resources. now rewrite (split_none _ _ H). Qed.

Lemma foldl_set_resources_tokens (sched : string) (l : list string) :
  Forall (λ r, has_char ";" r = false) l →
  ∀ config, foldl (set_resources sched) config l = foldl (set_resource sched) config l.
Proof.
  induction l as [|r l IH]; intros H config; [reflexivity|].
  inversion H as [|? ? Hr Hl]; subst. cbn [foldl].
  rewrite (set_resources_token _ _ _ Hr). now apply IH.
Qed.

Lemma foldl_set_resources_flat (sched : string) (rss : list string)
    (config : gmap string string) :
  foldl (set_resources sched) config rss
  = foldl (set_resource sched) config (flat_map (split ";") rss).
Proof.
  revert config. induction rss as [|rs rss IH]; intros config; [reflexivity|].
  cbn [foldl flat_map]. rewrite foldl_app, IH. reflexivity.
Qed.

Lemma flat_map_split_tokens (rss : list string) :
  Forall (λ r, has_char ";" r = false) (flat_map (split ";") rss).
Proof.
  induction rss as [|rs rss IH]; [constructor|].
  cbn [flat_map]. apply Forall_app. split; [apply split_pieces | assumption].
Qed.

(** X2: the two loops are one: writing overrides in one entry joined by
    ";" or as separate entries is the same.  Every override list gives the
    result of the list of its tokens. *)
Theorem overrides_flat (sch qu : option string) (rss : list string) (nc : bool) :
  _args_to_cromwell (Args sch qu rss nc)
  = _args_to_cromwell (Args sch qu (flat_map (split ";") rss) nc).
Proof.
  apply args_to_cromwell_ext. intros config.
  rewrite (foldl_set_resources_tokens _ _ (flat_map_split_tokens rss)).
  apply foldl_set_resources_flat.
Qed.

(** X3: overrides of different keys commute: two neighbouring key=value
    entries for different keys can be swapped, wherever they stand in the
    list. *)
Theorem overrides_commute (sch qu : option string) (rss1 rss2 : list string)
    (k1 v1 k2 v2 : string) (nc : bool) :
  k1 ≠ k2 →
  has_char "=" k1 = false → has_char "=" v1 = false →
  has_char ";" k1 = false → has_char ";" v1 = false →
  has_char "=" k2 = false → has_char "=" v2 = false →
  has_char ";" k2 = false → has_char ";" v2 = false →
  _args_to_cromwell
    (Args sch qu (rss1 ++ (k1 +:+ "=" +:+ v1) :: (k2 +:+ "=" +:+ v2) :: rss2) nc)
  = _args_to_cromwell
      (Args sch qu (rss1 ++ (k2 +:+ "=" +:+ v2) :: (k1 +:+ "=" +:+ v1) :: rss2) nc).
Proof.
  intros Hne H1 H2 H3 H4 H5 H6 H7 H8. apply args_to_cromwell_ext. intros config.
  rewrite !foldl_app. cbn [foldl].
  rewrite !set_resources_assign by assumption.
  f_equal. apply insert_insert_ne. congruence.
Qed.

Lemma overrides_commute_witness :
  _args_to_cromwell
    (Args (Some "torque") (Some "q1")
       (["noselect"] ++ ("walltime" +:+ "=" +:+ "2:00") :: ("account" +:+ "=" +:+ "A1") :: [])
       false)
  = _args_to_cromwell
      (Args (Some "torque") (Some "q1")
         (["noselect"] ++ ("account" +:+ "=" +:+ "A1") :: ("walltime" +:+ "=" +:+ "2:00") :: [])
         false).
Proof.
  apply (overrides_commute (Some "torque") (Some "q1") ["noselect"] []
           "walltime" "2:00" "account" "A1" false);
    [discriminate | reflexivity ..].
Defined.

(** ** One override and the other keys *)

Lemma set_resource_agree (sched k : string) (m m' : gmap string string) (r : string) :
  agree_except k m m' → agree_except k (set_resource sched m r) (set_resource sched m' r).
Proof.
  intros H. unfold set_resource.
  destruct (split "=" r) as [|x [|y [|z l]]]; try assumption.
  - destruct (custom !! (x, sched)) as [[key val]|]; [|assumption].
    intros j Hj. rewrite !lookup_insert. case_decide; [reflexivity | now apply H].
  - intros j Hj. rewrite !lookup_insert. case_decide; [reflexivity | now apply H].
Qed.

Lemma foldl_set_resources_agree (sched k : string) (rss : list string) :
  ∀ m m', agree_except k m m' →
    agree_except k (foldl (set_resources sched) m rss) (foldl (set_resources sched) m' rss).
Proof.
  induction rss as [|rs rss IH]; intros m m' H; [assumption|].
  cbn [foldl]. apply IH. unfold set_resources. revert m m' H.
  induction (split ";" rs) as [|r l IHl]; intros m m' H; [assumption|].
  cbn [foldl]. apply IHl. now apply set_resource_agree.
Qed.

Lemma foldl_set_resources_assign_agree (sched k v : string) (rss1 rss2 : list string)
    (config : gmap string string) :
  has_char "=" k = false → has_char "=" v = false →
  has_char ";" k = false → has_char ";" v = false →
  agree_except k
    (foldl (set_resources sched) config (rss1 ++ (k +:+ "=" +:+ v) :: rss2))
    (foldl (set_resources sched) config (rss1 ++ rss2)).
Proof.
  intros H1 H2 H3 H4. rewrite !foldl_app. cbn [foldl].
  apply foldl_set_resources_agree.
  rewrite set_resources_assign by assumption.
  intros j Hj. now rewrite lookup_insert_ne.
Qed.

(** X4: a key=value override touches its own key only: with the entry or
    without it, wherever it stands in the list, the returned mappings bind
    every other key alike. *)
Theorem override_frame (s q : string) (rss1 rss2 : list string) (k v : string) (nc : bool) :
  supported s → q ≠ EmptyString →
  has_char "=" k = false → has_char "=" v = false →
  has_char ";" k = false → has_char ";" v = false →
  ∃ config config',
    buildConfigParams (Args (Some s) (Some q) (rss1 ++ (k +:+ "=" +:+ v) :: rss2) nc)
      = Ok config
    ∧ buildConfigParams (Args (Some s) (Some q) (rss1 ++ rss2) nc) = Ok config'
    ∧ agree_except k config config'.
Proof.
  intros Hsup Hq H1 H2 H3 H4. unfold buildConfigParams.
  destruct (buildConfigParams_scheduled s q (rss1 ++ (k +:+ "=" +:+ v) :: rss2) nc Hsup Hq)
    as (d & Hd & ->).
  destruct (buildConfigParams_scheduled s q (rss1 ++ rss2) nc Hsup Hq) as (d' & Hd' & ->).
  assert (d' = d) as -> by congruence.
  eexists. eexists. split; [reflexivity|]. split; [reflexivity|].
  now apply foldl_set_resources_assign_agree.
Qed.

Lemma override_frame_witness :
  ∃ config config',
    buildConfigParams
      (Args (Some "slurm") (Some "q1")
         (["account=A1"] ++ ("timelimit" +:+ "=" +:+ "2:00") :: ["account=A2"]) false)
      = Ok config
    ∧ buildConfigParams
        (Args (Some "slurm") (Some "q1") (["account=A1"] ++ ["account=A2"]) false)
      = Ok config'
    ∧ agree_except "timelimit" config config'.
Proof.
  apply (override_frame "slurm" "q1" ["account=A1"] ["account=A2"] "timelimit" "2:00" false);
    [solve_supported | discriminate | reflexivity ..].
Defined.

(** ** Where the prefix applies *)

Lemma prefixes_lookup (k s : string) :
  ¬ (k = "account" ∧ (s = "slurm" ∨ s = "pbspro")) → prefixes !! (k, s) = None.
Proof.
  intros H. unfold prefixes. cbn [list_to_map foldr fst snd].
  rewrite !lookup_insert_ne, lookup_empty; [reflexivity | |];
    intros [= <- <-]; apply H; auto.
Qed.

(** X5: outside the pairs (account, slurm) and (account, pbspro) a value
    is stored as it is given: a final key=value override for any other
    key or scheduler binds the key to exactly the value.  So account=X
    under torque or sge gives "X", without "-A ". *)
Theorem override_verbatim (s q : string) (rss : list string) (k v : string) (nc : bool) :
  supported s → q ≠ EmptyString →
  has_char "=" k = false → has_char "=" v = false →
  has_char ";" k = false → has_char ";" v = false →
  ¬ (k = "account" ∧ (s = "slurm" ∨ s = "pbspro")) →
  ∃ config,
    buildConfigParams (Args (Some s) (Some q) (rss ++ [k +:+ "=" +:+ v])%list nc) = Ok config
    ∧ config !! k = Some v.
Proof.
  intros Hsup Hq H1 H2 H3 H4 Hks. unfold buildConfigParams.
  destruct (buildConfigParams_scheduled s q (rss ++ [k +:+ "=" +:+ v])%list nc Hsup Hq)
    as (d & Hd & ->).
  eexists. split; [reflexivity|].
  rewrite foldl_app. cbn [foldl].
  rewrite set_resources_assign by assumption.
  rewrite (prefixes_lookup _ _ Hks). apply lookup_insert_eq.
Qed.

Lemma override_verbatim_witness :
  ∃ config,
    buildConfigParams
      (Args (Some "torque") (Some "q1") (["walltime=2:00"] ++ ["account" +:+ "=" +:+ "A1"]) false)
      = Ok config
    ∧ config !! "account" = Some "A1".
Proof.
  apply (override_verbatim "torque" "q1" ["walltime=2:00"] "account" "A1" false);
    [solve_supported | discriminate | reflexivity .. |].
  intros [_ [H | H]]; discriminate.
Defined.

(** ** The keys of the returned mapping *)

Lemma set_resource_keys (sched : string) (config : gmap string string) (r k : string) :
  (sched = "pbspro" → is_Some (config !! "cpu_and_mem")) →
  is_Some (set_resource sched config r !! k) ↔ is_Some (config !! k) ∨ assigns k r = true.
Proof.
  intros Hinv. unfold set_resource, assigns.
  destruct (split "=" r) as [|x [|y [|z l]]]; try (intuition discriminate).
  - destruct (custom !! (x, sched)) as [[key val]|] eqn:Hc; [|intuition discriminate].
    apply custom_lookup in Hc as (_ & -> & -> & _).
    rewrite lookup_insert_is_Some'. split; [|intuition discriminate].
    intros [<- | H]; auto.
  - rewrite lookup_insert_is_Some', String.eqb_eq. tauto.
Qed.

Lemma foldl_set_resource_keys (sched k : string) (l : list string) :
  ∀ config, (sched = "pbspro" → is_Some (config !! "cpu_and_mem")) →
    is_Some (foldl (set_resource sched) config l !! k)
    ↔ is_Some (config !! k) ∨ existsb (assigns k) l = true.
Proof.
  induction l as [|r l IH]; intros config Hinv; cbn [foldl existsb].
  - intuition discriminate.
  - rewrite IH by (intros Hs; apply set_resource_is_Some; auto).
    rewrite (set_resource_keys _ _ _ _ Hinv), orb_true_iff. tauto.
Qed.

Lemma existsb_flat_map (k : string) (rss : list string) :
  existsb (assigns k) (flat_map (split ";") rss) = overrides_key k rss.
Proof.
  induction rss as [|rs rss IH]; [reflexivity|].
  cbn [flat_map overrides_key existsb]. rewrite existsb_app. f_equal. exact IH.
Qed.

(** X6: the keys of the returned mapping are exactly the default keys of
    the scheduler, queue, and the keys assigned by key=value tokens:
    overrides never remove a default, and nothing else adds a key (the
    noselect substitution rewrites a key pbspro already has). *)
Theorem config_keys (s q : string) (rss : list string) (nc : bool)
    (defaults : gmap string string) :
  default_config !! s = Some defaults → q ≠ EmptyString →
  ∃ config,
    buildConfigParams (Args (Some s) (Some q) rss nc) = Ok config
    ∧ ∀ k, is_Some (config !! k)
           ↔ is_Some (defaults !! k) ∨ k = "queue" ∨ overrides_key k rss = true.
Proof.
  intros Hd Hq.
  assert (Hsup : supported s) by (apply default_config_supported; eauto).
  unfold buildConfigParams.
  destruct (buildConfigParams_scheduled s q rss nc Hsup Hq) as (d & Hd' & ->).
  assert (d = defaults) as -> by congruence.
  eexists. split; [reflexivity|]. intros k.
  rewrite foldl_set_resources_flat, foldl_set_resource_keys.
  - rewrite lookup_insert_is_Some', existsb_flat_map. intuition congruence.
  - intros ->. rewrite lookup_insert_ne by discriminate.
    injection Hd as <-. vm_compute. eauto.
Qed.

Lemma config_keys_witness :
  ∃ config,
    buildConfigParams (Args (Some "pbspro") (Some "q1") ["noselect;mem=4"] false) = Ok config
    ∧ ∀ k, is_Some (config !! k)
           ↔ is_Some ((list_to_map
                         [("walltime", "1-00:00"); ("account", EmptyString);
                          ("cpu_and_mem", "-l select=1:ncpus=${cpu}:mem=${memory_mb}mb")]
                       : gmap string string) !! k)
             ∨ k = "queue" ∨ overrides_key k ["noselect;mem=4"] = true.
Proof.
  apply (config_keys "pbspro" "q1" ["noselect;mem=4"] false); [reflexivity | discriminate].
Defined.

(** ** Standard keys *)

Lemma std_args_no_container (sch qu : option string) (rss : list string) (nc : bool) :
  std_args (Args sch qu rss nc) = std_args (Args None None [] nc).
Proof. reflexivity. Qed.

Lemma std_args_keys (a : args) (k : string) :
  k ∈ std_keys → is_Some (std_args a !! k).
Proof.
  unfold std_keys. rewrite !elem_of_cons, elem_of_nil.
  intros [-> | [-> | [-> | [-> | []]]]]; vm_compute; eauto.
Qed.

Lemma update_agree (k : string) (m m' std : gmap string string) :
  is_Some (std !! k) → agree_except k m m' → update m std = update m' std.
Proof.
  intros Hk H. unfold update. apply map_eq. intros j.
  destruct (decide (j = k)) as [-> | Hj].
  - now rewrite !lookup_union_l'.
  - rewrite !lookup_union. now rewrite (H j Hj).
Qed.

Lemma create_cromwell_config_main (a a' : args) (work_dir : string)
    (fs : filesystem) :
  main_config a work_dir = main_config a' work_dir →
  create_cromwell_config a work_dir fs = create_cromwell_config a' work_dir fs.
Proof. intros H. unfold create_cromwell_config. now rewrite H. Qed.

(** X7: the keys docker_attrs, submit_docker, cwl_attrs and filesystem
    cannot be overridden: a key=value entry for one of them, wherever it
    stands in the list, changes neither the result of
    [create_cromwell_config] nor the file it writes. *)
Theorem std_keys_not_overridable (sch qu : option string) (rss1 rss2 : list string)
    (k v : string) (nc : bool) (work_dir : string) (fs : filesystem) :
  k ∈ std_keys → has_char "=" v = false → has_char ";" v = false →
  create_cromwell_config (Args sch qu (rss1 ++ (k +:+ "=" +:+ v) :: rss2) nc) work_dir fs
  = create_cromwell_config (Args sch qu (rss1 ++ rss2) nc) work_dir fs.
Proof.
  intros Hk Hv Hv'. apply create_cromwell_config_main. unfold main_config.
  rewrite !args_to_cromwell_fold.
  destruct (truthy sch); [|reflexivity].
  destruct (default_config !! default EmptyString sch) as [d|]; [|reflexivity].
  destruct (truthy qu); [|reflexivity].
  rewrite !bind_ok.
  rewrite (std_args_no_container sch qu (rss1 ++ rss2) nc).
  rewrite (std_args_no_container sch qu (rss1 ++ _ :: rss2) nc).
  rewrite (update_agree k _
             (foldl (set_resources (default EmptyString sch))
                    (<["queue" := default EmptyString qu]> d) (rss1 ++ rss2)));
    [reflexivity | now apply std_args_keys |].
  assert (has_char "=" k = false ∧ has_char ";" k = false) as [Hk1 Hk2].
  { revert Hk. unfold std_keys. rewrite !elem_of_cons, elem_of_nil.
    intros [-> | [-> | [-> | [-> | []]]]]; split; reflexivity. }
  now apply foldl_set_resources_assign_agree.
Qed.

Lemma std_keys_not_overridable_witness :
  create_cromwell_config
    (Args (Some "slurm") (Some "q1")
       (["account=A1"] ++ ("filesystem" +:+ "=" +:+ "%(nokey)s") :: ["timelimit=2:00"]) false)
    "/work" no_files
  = create_cromwell_config
      (Args (Some "slurm") (Some "q1") (["account=A1"] ++ ["timelimit=2:00"]) false)
      "/work" no_files.
Proof.
  apply (std_keys_not_overridable (Some "slurm") (Some "q1") ["account=A1"] ["timelimit=2:00"]
           "filesystem" "%(nokey)s" false "/work" no_files);
    [unfold std_keys; rewrite !elem_of_cons; repeat first [left; reflexivity | right]
    | reflexivity ..].
Defined.

(** ** When rendering succeeds *)

Ltac in_list := rewrite !elem_of_cons; repeat first [left; reflexivity | right].

Lemma main_config_local (a : args) (work_dir : string) :
  truthy (scheduler a) = false →
  main_config a work_dir
  = Ok (update (list_to_map [("hpc", EmptyString); ("work_dir", work_dir)]) (std_args a)).
Proof.
  intros H. unfold main_config. rewrite (args_to_cromwell_local a H), bind_ok.
  reflexivity.
Qed.

Lemma main_config_sge (c : ascii) (q : string) (rss : list string) (nc : bool)
    (work_dir : string) :
  main_config (Args (Some "sge") (Some (String c q)) rss nc) work_dir
  = Raise (ValueError "incomplete format key").
Proof.
  destruct (main_config_scheduled "sge" (String c q) rss nc work_dir) as (d & Hd & ->);
    [solve_supported | discriminate |].
  unfold hpc_block. cbn [truthy default from_option id].
  change (HPC_CONFIGS !! "sge") with (Some HPC_sge). cbv beta iota.
  rewrite HPC_sge_raises. apply bind_raise.
Qed.

Lemma main_config_lsf (c : ascii) (q : string) (rss : list string) (nc : bool)
    (work_dir : string) :
  main_config (Args (Some "lsf") (Some (String c q)) rss nc) work_dir
  = Raise (KeyError "lsf").
Proof.
  destruct (main_config_scheduled "lsf" (String c q) rss nc work_dir) as (d & Hd & ->);
    [solve_supported | discriminate |].
  unfold hpc_block. cbn [truthy default from_option id].
  change (HPC_CONFIGS !! "lsf") with (@None string). apply bind_raise.
Qed.

Lemma main_config_invalid (a : args) (work_dir : string) (e : pyerror) :
  _args_to_cromwell a = Raise e → main_config a work_dir = Raise e.
Proof. intros H. unfold main_config. rewrite H. apply bind_raise. Qed.

Lemma render_succeeds (a : args) (work_dir : string) :
  is_ok (render a work_dir) = true
  ↔ truthy (scheduler a) = false
    ∨ ∃ s, scheduler a = Some s ∧ s ∈ ["slurm"; "torque"; "pbspro"]
           ∧ truthy (queue a) = true.
Proof.
  destruct a as [sch qu rss nc]. cbn [scheduler queue].
  destruct (truthy sch) eqn:Hsch.
  - apply truthy_true in Hsch as (s & -> & Hs).
    destruct (decide (supported s)) as [Hsup | Hsup].
    + destruct (truthy qu) eqn:Hqu.
      * apply truthy_true in Hqu as (q & -> & Hq).
        destruct q as [|c q]; [contradiction|].
        supported_cases Hsup.
        -- destruct (render_ok "slurm" c q rss nc work_dir) as [t ->]; [in_list|].
           split; [|reflexivity]. intros _. right. exists "slurm".
           split; [reflexivity | split; [in_list | reflexivity]].
        -- unfold render. rewrite main_config_sge, bind_raise.
           split; [discriminate|]. intros [H | (s & [= <-] & H & _)]; [discriminate|].
           revert H. rewrite !elem_of_cons, elem_of_nil. intuition discriminate.
        -- unfold render. rewrite main_config_lsf, bind_raise.
           split; [discriminate|]. intros [H | (s & [= <-] & H & _)]; [discriminate|].
           revert H. rewrite !elem_of_cons, elem_of_nil. intuition discriminate.
        -- destruct (render_ok "torque" c q rss nc work_dir) as [t ->]; [in_list|].
           split; [|reflexivity]. intros _. right. exists "torque".
           split; [reflexivity | split; [in_list | reflexivity]].
        -- destruct (render_ok "pbspro" c q rss nc work_dir) as [t ->]; [in_list|].
           split; [|reflexivity]. intros _. right. exists "pbspro".
           split; [reflexivity | split; [in_list | reflexivity]].
      * unfold render. rewrite (main_config_invalid _ _ MissingQueueError), bind_raise.
        -- split; [discriminate|]. intros [H | (s' & _ & _ & H)]; discriminate.
        -- rewrite (args_to_cromwell_scheduled (Args (Some s) qu rss nc) s eq_refl Hs).
           apply default_config_supported in Hsup as [d ->]. cbn [queue].
           apply truthy_false in Hqu as [-> | ->]; reflexivity.
    + unfold render.
      rewrite (main_config_invalid _ _ (UnsupportedSchedulerError s)), bind_raise.
      * split; [discriminate|]. intros [H | (s' & [= <-] & H & _)]; [discriminate|].
        exfalso. apply Hsup. revert H. unfold supported.
        rewrite !elem_of_cons, !elem_of_nil. tauto.
      * rewrite (args_to_cromwell_scheduled (Args (Some s) qu rss nc) s eq_refl Hs).
        apply default_config_unsupported in Hsup. now rewrite Hsup.
  - split; [auto|]. intros _. unfold render.
    rewrite (main_config_local (Args sch qu rss nc) work_dir Hsch), bind_ok.
    now destruct (CROMWELL_CONFIG_ok (Args sch qu rss nc) work_dir EmptyString) as [t ->].
Qed.

(** X8: the text of the configuration can be computed exactly for a
    request without scheduler, and for one with the scheduler slurm,
    torque or pbspro and a non-empty queue: overrides, container flag and
    work directory play no part in it.  [create_cromwell_config] succeeds
    exactly when, in addition, the environment lets the file be opened
    and the text be written. *)
Theorem create_cromwell_config_succeeds (a : args) (work_dir : string) (fs : filesystem) :
  (is_ok (render a work_dir) = true
   ↔ truthy (scheduler a) = false
     ∨ ∃ s, scheduler a = Some s ∧ s ∈ ["slurm"; "torque"; "pbspro"]
            ∧ truthy (queue a) = true)
  ∧ (is_ok (fst (create_cromwell_config a work_dir fs)) = true
     ↔ ∃ text, render a work_dir = Ok text
               ∧ open_error fs (path_join work_dir "bcbio-cromwell.conf") = None
               ∧ write_error fs (path_join work_dir "bcbio-cromwell.conf") text = None).
Proof.
  split; [apply render_succeeds|].
  rewrite create_cromwell_config_render.
  destruct (render a work_dir) as [text|e].
  - destruct (open_error fs _) as [e|] eqn:Hopen.
    + split; [discriminate|]. intros (t & _ & H & _). discriminate.
    + destruct (write_error fs _ text) as [e|] eqn:Hwrite.
      * split; [discriminate|]. intros (t & [= <-] & _ & H). congruence.
      * split; [|reflexivity]. intros _. exists text. auto.
  - split; [discriminate|]. intros (t & H & _). discriminate.
Qed.

(** X9: without a scheduler the queue and the overrides are not read by
    [create_cromwell_config] either: the text is always computed and it
    depends on the container flag and the work directory only, the call
    does what the call without queue and overrides does, and the file is
    written whenever the environment lets it be opened and written. *)
Theorem local_render (a : args) (work_dir : string) (fs : filesystem) :
  scheduler a = None ∨ scheduler a = Some EmptyString →
  (∃ text,
     render a work_dir = Ok text
     ∧ render (Args None None [] (no_container a)) work_dir = Ok text
     ∧ (open_error fs (path_join work_dir "bcbio-cromwell.conf") = None →
        write_error fs (path_join work_dir "bcbio-cromwell.conf") text = None →
        create_cromwell_config a work_dir fs
        = (Ok (path_join work_dir "bcbio-cromwell.conf"),
           set_file (path_join work_dir "bcbio-cromwell.conf") text fs)))
  ∧ create_cromwell_config a work_dir fs
    = create_cromwell_config (Args None None [] (no_container a)) work_dir fs.
Proof.
  intros H. apply truthy_false in H.
  assert (Hmc : main_config a work_dir
                = main_config (Args None None [] (no_container a)) work_dir).
  { rewrite (main_config_local a work_dir H).
    rewrite (main_config_local (Args None None [] (no_container a)) work_dir eq_refl).
    destruct a; reflexivity. }
  split; [|now apply create_cromwell_config_main].
  rewrite create_cromwell_config_render. unfold render. rewrite <- Hmc.
  rewrite (main_config_local a work_dir H), bind_ok.
  destruct (CROMWELL_CONFIG_ok a work_dir EmptyString) as [text ->].
  exists text. split; [reflexivity|]. split; [reflexivity|].
  intros -> ->. reflexivity.
Qed.

Lemma local_render_witness :
  (∃ text,
     render (Args None (Some "q1") ["account=A1"] true) "/work/" = Ok text
     ∧ render (Args None None [] true) "/work/" = Ok text
     ∧ (open_error no_files (path_join "/work/" "bcbio-cromwell.conf") = None →
        write_error no_files (path_join "/work/" "bcbio-cromwell.conf") text = None →
        create_cromwell_config (Args None (Some "q1") ["account=A1"] true) "/work/" no_files
        = (Ok (path_join "/work/" "bcbio-cromwell.conf"),
           set_file (path_join "/work/" "bcbio-cromwell.conf") text no_files)))
  ∧ create_cromwell_config (Args None (Some "q1") ["account=A1"] true) "/work/" read_only
    = create_cromwell_config (Args None None [] true) "/work/" read_only.
Proof.
  split.
  - apply (proj1 (local_render (Args None (Some "q1") ["account=A1"] true) "/work/" no_files
                    (or_introl eq_refl))).
  - apply (proj2 (local_render (Args None (Some "q1") ["account=A1"] true) "/work/" read_only
                    (or_introl eq_refl))).
Defined.

(** ** The text of a filled template *)

Lemma append_cons (c : ascii) (s t : string) : String c s +:+ t = String c (s +:+ t).
Proof. reflexivity. Qed.

Lemma append_assoc (s t u : string) : (s +:+ t) +:+ u = s +:+ t +:+ u.
Proof.
  induction s as [|c s IH]; [reflexivity|]. rewrite !append_cons. f_equal. exact IH.
Qed.

Lemma append_nil_r (s : string) : s +:+ EmptyString = s.
Proof.
  induction s as [|c s IH]; [reflexivity|]. rewrite append_cons. f_equal. exact IH.
Qed.

Lemma contains_refl (s : string) : contains s s.
Proof. exists EmptyString, EmptyString. now rewrite append_nil_r. Qed.

Lemma contains_app (sub s pre post : string) :
  contains sub s → contains sub (pre +:+ s +:+ post).
Proof.
  intros (p & q & ->). exists (pre +:+ p), (q +:+ post).
  now rewrite !append_assoc.
Qed.

Lemma fill_app (d : gmap string string) (ps qs : list piece) :
  fill d (ps ++ qs) = fill d ps +:+ fill d qs.
Proof.
  induction ps as [|[c|k] ps IH]; cbn [fill app]; [reflexivity | |].
  - rewrite IH. reflexivity.
  - rewrite IH, append_assoc. reflexivity.
Qed.

Lemma fill_lits (d : gmap string string) (s : string) : fill d (lits s) = s.
Proof. induction s as [|c s IH]; cbn [fill lits]; [reflexivity | f_equal; exact IH]. Qed.

Lemma pieces_from_sound (d : gmap string string) (fmt : string) :
  ∀ st st' ps,
    pieces_from st fmt = Some ps → found d st st' →
    Forall (λ k, is_Some (d !! k)) (keys_of ps) →
    format_from d st' fmt = Ok (fill d ps).
Proof.
  induction fmt as [|c fmt IH]; intros st st' ps Hps Hst Hkeys.
  - destruct st, st'; simpl in Hst; try contradiction; try discriminate.
    injection Hps as <-. reflexivity.
  - destruct st as [| |n k|key], st' as [| |n' k'|val]; simpl in Hst; try contradiction;
      cbn [format_from pieces_from] in *.
    + destruct (Ascii.eqb c "%").
      * now apply (IH Percent).
      * apply fmap_Some in Hps as (ps' & Hps' & ->). cbn [keys_of fill] in *.
        now rewrite (IH Text Text ps').
    + destruct (Ascii.eqb c "(").
      * apply (IH (InKey 0 EmptyString)); [assumption | split; reflexivity | assumption].
      * destruct (Ascii.eqb c "%") eqn:Hc; [|discriminate].
        apply fmap_Some in Hps as (ps' & Hps' & ->). cbn [keys_of fill] in *.
        now rewrite (IH Text Text ps').
    + destruct Hst as [<- <-].
      destruct (Ascii.eqb c ")").
      * destruct n as [|n].
        -- assert (is_Some (d !! k)) as [val Hval].
           { destruct fmt as [|c' fmt']; [discriminate|]. cbn [pieces_from] in Hps.
             destruct (Ascii.eqb c' "s"); [|discriminate].
             apply fmap_Some in Hps as (ps' & _ & ->). cbn [keys_of] in Hkeys.
             now inversion Hkeys. }
           rewrite Hval. now apply (IH (AfterKey k)).
        -- apply (IH (InKey n (k +:+ String c EmptyString)));
             [assumption | split; reflexivity | assumption].
      * destruct (Ascii.eqb c "(").
        -- apply (IH (InKey (S n) (k +:+ String c EmptyString)));
             [assumption | split; reflexivity | assumption].
        -- apply (IH (InKey n (k +:+ String c EmptyString)));
             [assumption | split; reflexivity | assumption].
    + destruct (Ascii.eqb c "s"); [|discriminate].
      apply fmap_Some in Hps as (ps' & Hps' & ->). cbn [keys_of fill] in *.
      inversion Hkeys as [|? ? _ Hkeys']; subst.
      rewrite (IH Text Text ps' Hps' I Hkeys'), Hst. reflexivity.
Qed.

(** Filling a template whose placeholders are all bound gives the text
    of its pieces, the values put in as they are. *)
Lemma pyformat_fill (fmt : string) (d : gmap string string) (ps : list piece) :
  pieces fmt = Some ps → Forall (λ k, is_Some (d !! k)) (keys_of ps) →
  pyformat fmt d = Ok (fill d ps).
Proof. intros Hps Hkeys. now apply (pieces_from_sound d fmt Text Text ps). Qed.

(** A placeholder between two literal texts shows in the filled text. *)
Lemma fill_around (d : gmap string string) (ps : list piece) (k X Y v : string) :
  ps = (take (key_index k ps - String.length X) ps
          ++ lits X ++ Key k :: lits Y ++ drop (S (key_index k ps) + String.length Y) ps)%list →
  d !! k = Some v →
  contains (X +:+ v +:+ Y) (fill d ps).
Proof.
  intros Hps Hk.
  remember (take (key_index k ps - String.length X) ps) as before eqn:Hb.
  remember (drop (S (key_index k ps) + String.length Y) ps) as after eqn:Ha.
  clear Hb Ha. subst ps.
  rewrite !fill_app. cbn [fill]. rewrite Hk, !fill_app, !fill_lits. cbn [default from_option id].
  exists (fill d before), (fill d after).
  rewrite !append_assoc. reflexivity.
Qed.

Lemma contains_trans (a b c : string) : contains a b → contains b c → contains a c.
Proof. intros Hab (p & q & ->). now apply contains_app. Qed.

Lemma std_args_other (a : args) (k : string) : k ∉ std_keys → std_args a !! k = None.
Proof.
  unfold std_keys. rewrite !not_elem_of_cons. intros (H1 & H2 & H3 & H4 & _).
  unfold std_args. cbn [list_to_map foldr fst snd].
  rewrite !lookup_insert_ne by congruence. apply lookup_empty.
Qed.

Lemma conf_args_lookup (a : args) (config : gmap string string) (k : string) :
  k ∉ std_keys → update config (std_args a) !! k = config !! k.
Proof. intros H. unfold update. apply lookup_union_r. now apply std_args_other. Qed.

Lemma conf_args_present (a : args) (sched q : string) (rss : list string)
    (defaults : gmap string string) (k : string) :
  is_Some (defaults !! k) ∨ k = "queue" ∨ k ∈ std_keys →
  is_Some (update (foldl (set_resources sched) (<["queue" := q]> defaults) rss)
                  (std_args a) !! k).
Proof.
  intros H. unfold update. apply lookup_union_is_Some.
  destruct H as [H | [-> | H]].
  - right. apply foldl_set_resources_is_Some, lookup_insert_is_Some'. auto.
  - right. apply foldl_set_resources_is_Some. rewrite lookup_insert_eq. eauto.
  - left. now apply std_args_keys.
Qed.

(** The text written when the top level template is filled. *)
Lemma CROMWELL_CONFIG_fill (a : args) (work_dir hpc : string) :
  pyformat CROMWELL_CONFIG
    (update (list_to_map [("hpc", hpc); ("work_dir", work_dir)]) (std_args a))
  = Ok (fill (update (list_to_map [("hpc", hpc); ("work_dir", work_dir)]) (std_args a))
             (template_pieces CROMWELL_CONFIG)).
Proof.
  apply pyformat_fill; [vm_compute; reflexivity|].
  replace (keys_of (template_pieces CROMWELL_CONFIG))
    with ["work_dir"; "docker_attrs"; "cwl_attrs"; "submit_docker"; "filesystem"; "hpc"]
    by (vm_compute; reflexivity).
  repeat (apply List.Forall_cons;
          [unfold update; apply lookup_union_is_Some;
           solve [left; vm_compute; eauto | right; vm_compute; eauto]|]).
  apply List.Forall_nil.
Qed.

Lemma main_config_lookup (a : args) (work_dir hpc : string) :
  update (list_to_map [("hpc", hpc); ("work_dir", work_dir)]) (std_args a) !! "hpc" = Some hpc
  ∧ update (list_to_map [("hpc", hpc); ("work_dir", work_dir)]) (std_args a) !! "work_dir"
    = Some work_dir.
Proof.
  split; (rewrite conf_args_lookup;
          [vm_compute; reflexivity
          | unfold std_keys; rewrite !not_elem_of_cons; repeat split; try discriminate;
            apply not_elem_of_nil]).
Qed.

Lemma render_fill (a : args) (work_dir text : string) :
  render a work_dir = Ok text →
  ∃ hpc, text = fill (update (list_to_map [("hpc", hpc); ("work_dir", work_dir)]) (std_args a))
                     (template_pieces CROMWELL_CONFIG).
Proof.
  unfold render. destruct (main_config a work_dir) as [mc|e] eqn:Hmc; [|discriminate].
  rewrite bind_ok. destruct (main_config_shape a work_dir mc Hmc) as [hpc ->].
  rewrite CROMWELL_CONFIG_fill. intros [= <-]. eauto.
Qed.

(** X10: the rendered file places the database of the workflow engine
    in the work directory: its text contains the url
    jdbc:hsqldb:file:<work_dir>/persist/metadata, the work directory put in
    as it is. *)
Theorem database_in_work_dir (a : args) (work_dir text : string) :
  render a work_dir = Ok text →
  contains ("jdbc:hsqldb:file:" +:+ work_dir +:+ "/persist/metadata") text.
Proof.
  intros H. apply render_fill in H as [hpc ->].
  apply (fill_around _ _ "work_dir" "jdbc:hsqldb:file:" "/persist/metadata" work_dir);
    [vm_compute; reflexivity | apply main_config_lookup].
Qed.

Lemma database_in_work_dir_witness :
  ∃ text,
    render (Args None None [] false) "/data/run 1" = Ok text
    ∧ contains ("jdbc:hsqldb:file:" +:+ "/data/run 1" +:+ "/persist/metadata") text.
Proof.
  eexists. split; [vm_compute; reflexivity|].
  apply (database_in_work_dir (Args None None [] false) "/data/run 1").
  vm_compute. reflexivity.
Defined.

Lemma key_source_present (a : args) (sched q : string) (rss : list string)
    (defaults : gmap string string) (ks : list string) :
  forallb (key_source defaults) ks = true →
  Forall (λ k, is_Some (update (foldl (set_resources sched) (<["queue" := q]> defaults) rss)
                               (std_args a) !! k)) ks.
Proof.
  intros H. apply Forall_forall. intros k Hk.
  apply conf_args_present.
  rewrite forallb_forall in H. specialize (H k). rewrite <- list_elem_of_In in H.
  specialize (H Hk). unfold key_source in H.
  rewrite !orb_true_iff, bool_decide_eq_true, String.eqb_eq, existsb_exists in H.
  destruct H as [[H | H] | (x & Hx & Hxk)]; auto.
  right. right. apply String.eqb_eq in Hxk as ->. now apply list_elem_of_In.
Qed.

(** A setting of a backend template shows in the rendered file with the
    value the configuration binds it to. *)
Lemma hpc_setting_in_text (s T : string) (defaults : gmap string string) (k X Y : string)
    (q : string) (rss : list string) (nc : bool) (work_dir : string) :
  supported s → q ≠ EmptyString →
  default_config !! s = Some defaults →
  HPC_CONFIGS !! s = Some T →
  pieces T = Some (template_pieces T) →
  forallb (key_source defaults) (keys_of (template_pieces T)) = true →
  template_pieces T
  = (take (key_index k (template_pieces T) - String.length X) (template_pieces T)
       ++ lits X ++ Key k :: lits Y
       ++ drop (S (key_index k (template_pieces T)) + String.length Y) (template_pieces T))%list →
  k ∉ std_keys → is_Some (defaults !! k) ∨ k = "queue" →
  ∃ config v text,
    buildConfigParams (Args (Some s) (Some q) rss nc) = Ok config
    ∧ config !! k = Some v
    ∧ render (Args (Some s) (Some q) rss nc) work_dir = Ok text
    ∧ contains (X +:+ v +:+ Y) text.
Proof.
  intros Hsup Hq Hd HT Hps Hkeys Hcut Hk Hsrc.
  pose proof (supported_nonempty s Hsup) as Hs.
  destruct (buildConfigParams_scheduled s q rss nc Hsup Hq) as (d & Hd' & Hargs).
  assert (d = defaults) as -> by congruence.
  set (config := foldl (set_resources s) (<["queue" := q]> defaults) rss) in *.
  assert (is_Some (config !! k)) as [v Hv].
  { apply foldl_set_resources_is_Some, lookup_insert_is_Some'.
    destruct Hsrc as [H | ->]; auto. }
  set (conf_args := update config (std_args (Args (Some s) (Some q) rss nc))).
  assert (Hhpc : hpc_block (Some s) conf_args = Ok (fill conf_args (template_pieces T))).
  { unfold hpc_block. destruct s as [|c s]; [contradiction|].
    cbn [truthy default from_option id]. rewrite HT.
    apply pyformat_fill; [assumption|]. now apply key_source_present. }
  exists config, v. eexists.
  split; [unfold buildConfigParams; rewrite Hargs; reflexivity|].
  split; [assumption|].
  split.
  - unfold render, main_config. rewrite Hargs, !bind_ok. fold conf_args.
    rewrite Hhpc, !bind_ok. apply CROMWELL_CONFIG_fill.
  - apply (contains_trans _ (fill conf_args (template_pieces T))).
    + apply (fill_around _ _ k X Y v); [assumption|].
      unfold conf_args. now rewrite conf_args_lookup.
    + pose proof (fill_around
                    (update (list_to_map [("hpc", fill conf_args (template_pieces T));
                                          ("work_dir", work_dir)])
                            (std_args (Args (Some s) (Some q) rss nc)))
                    (template_pieces CROMWELL_CONFIG)
                    "hpc" EmptyString EmptyString (fill conf_args (template_pieces T))) as Hc.
      change (EmptyString +:+ ?x +:+ EmptyString) with (x +:+ EmptyString) in Hc.
      rewrite append_nil_r in Hc.
      apply Hc; [vm_compute; reflexivity | apply main_config_lookup].
Qed.

(** X11: for slurm, torque and pbspro the settings of the backend reach
    the file with the value the configuration parameters bind them to,
    put in as it is: for each of queue, account and timelimit (slurm) or
    walltime (torque, pbspro) the rendered text contains the declaration
    String <key> = "<value>". *)
Theorem settings_rendered (s k q : string) (rss : list string) (nc : bool)
    (work_dir : string) :
  (s, k) ∈ [("slurm", "queue"); ("slurm", "timelimit"); ("slurm", "account");
            ("torque", "queue"); ("torque", "account"); ("torque", "walltime");
            ("pbspro", "queue"); ("pbspro", "account"); ("pbspro", "walltime")] →
  q ≠ EmptyString →
  ∃ config v text,
    buildConfigParams (Args (Some s) (Some q) rss nc) = Ok config
    ∧ config !! k = Some v
    ∧ render (Args (Some s) (Some q) rss nc) work_dir = Ok text
    ∧ contains (("String " +:+ k +:+ " = " +:+ dq) +:+ v +:+ dq) text.
Proof.
  intros Hsk Hq. revert Hsk. rewrite !elem_of_cons, elem_of_nil.
  intros [H | [H | [H | [H | [H | [H | [H | [H | [H | []]]]]]]]]];
    injection H as -> ->;
    (eapply hpc_setting_in_text;
     [ solve_supported | assumption | reflexivity | reflexivity
     | vm_compute; reflexivity | vm_compute; reflexivity | vm_compute; reflexivity
     | unfold std_keys; rewrite !not_elem_of_cons; repeat split; try discriminate;
       apply not_elem_of_nil
     | first [right; reflexivity | left; vm_compute; eauto] ]).
Qed.

Lemma settings_rendered_witness :
  ∃ config v text,
    buildConfigParams (Args (Some "slurm") (Some "q1") ["account=%(x)s"] false) = Ok config
    ∧ config !! "account" = Some v
    ∧ render (Args (Some "slurm") (Some "q1") ["account=%(x)s"] false) "/work" = Ok text
    ∧ contains (("String " +:+ "account" +:+ " = " +:+ dq) +:+ v +:+ dq) text.
Proof.
  apply (settings_rendered "slurm" "account" "q1" ["account=%(x)s"] false "/work").
  - rewrite !elem_of_cons. right. right. left. reflexivity.
  - discriminate.
Defined.

(** ** Last write wins, for every key *)

Lemma set_resource_written (sched : string) (config : gmap string string) (r : string) :
  set_resource sched config r
  = match written sched r with
    | Some (key, c) => <[key := c]> config
    | None => config
    end.
Proof.
  unfold set_resource, written.
  destruct (split "=" r) as [|x [|y [|z l]]]; reflexivity.
Qed.

Lemma foldl_set_resource_lookup (sched k : string) (l : list string) :
  ∀ config,
    foldl (set_resource sched) config l !! k
    = match last_write sched k l with
      | Some c => Some c
      | None => config !! k
      end.
Proof.
  induction l as [|r l IH]; intros config; cbn [foldl last_write]; [reflexivity|].
  rewrite IH. destruct (last_write sched k l); [reflexivity|].
  rewrite set_resource_written.
  destruct (written sched r) as [[key c]|]; [|reflexivity].
  destruct (String.eqb key k) eqn:Hk.
  - apply String.eqb_eq in Hk as ->. apply lookup_insert_eq.
  - apply String.eqb_neq in Hk. now rewrite lookup_insert_ne.
Qed.

Lemma last_write_app (sched k : string) (l1 l2 : list string) :
  last_write sched k (l1 ++ l2)
  = match last_write sched k l2 with
    | Some c => Some c
    | None => last_write sched k l1
    end.
Proof.
  induction l1 as [|r l1 IH]; cbn [app last_write].
  - now destruct (last_write sched k l2).
  - rewrite IH. now destruct (last_write sched k l2).
Qed.

(** X12: last write wins, for every key: the returned mapping binds a
    key to what the last token writing it gives (the value of a key=value
    token with its prefix, or the literal of a custom token), and a key no
    token writes to its default, or to the queue of the request. *)
Theorem config_last_write (s q : string) (rss : list string) (nc : bool)
    (defaults : gmap string string) :
  default_config !! s = Some defaults → q ≠ EmptyString →
  ∃ config,
    buildConfigParams (Args (Some s) (Some q) rss nc) = Ok config
    ∧ ∀ k, config !! k
           = match last_write s k (flat_map (split ";") rss) with
             | Some c => Some c
             | None => if String.eqb k "queue" then Some q else defaults !! k
             end.
Proof.
  intros Hd Hq.
  assert (Hsup : supported s) by (apply default_config_supported; eauto).
  unfold buildConfigParams.
  destruct (buildConfigParams_scheduled s q rss nc Hsup Hq) as (d & Hd' & ->).
  assert (d = defaults) as -> by congruence.
  eexists. split; [reflexivity|]. intros k.
  rewrite foldl_set_resources_flat, foldl_set_resource_lookup.
  destruct (last_write s k _); [reflexivity|].
  destruct (String.eqb k "queue") eqn:Hk.
  - apply String.eqb_eq in Hk as ->. apply lookup_insert_eq.
  - apply String.eqb_neq in Hk. now rewrite lookup_insert_ne.
Qed.

Lemma config_last_write_witness :
  ∃ config,
    buildConfigParams (Args (Some "pbspro") (Some "q1") ["account=A1;noselect"; "account=A2"] false)
      = Ok config
    ∧ ∀ k, config !! k
           = match last_write "pbspro" k
                     (flat_map (split ";") ["account=A1;noselect"; "account=A2"]) with
             | Some c => Some c
             | None =>
                 if String.eqb k "queue" then Some "q1"
                 else (list_to_map
                         [("walltime", "1-00:00"); ("account", EmptyString);
                          ("cpu_and_mem", "-l select=1:ncpus=${cpu}:mem=${memory_mb}mb")]
                       : gmap string string) !! k
             end.
Proof.
  apply (config_last_write "pbspro" "q1" ["account=A1;noselect"; "account=A2"] false);
    [reflexivity | discriminate].
Defined.

(** X13: giving the whole override list twice is the same as giving it
    once. *)
Theorem overrides_idempotent (sch qu : option string) (rss : list string) (nc : bool) :
  _args_to_cromwell (Args sch qu (rss ++ rss) nc) = _args_to_cromwell (Args sch qu rss nc).
Proof.
  apply args_to_cromwell_ext. intros config. apply map_eq. intros k.
  rewrite !foldl_set_resources_flat, !foldl_set_resource_lookup.
  rewrite flat_map_app, last_write_app.
  now destruct (last_write _ k (flat_map (split ";") rss)).
Qed.

(** ** The container flag *)

(** X14: the container flag shows in the rendered file: with containers
    disabled the text has the line submit-docker: "" (two double quotes),
    and with containers enabled it declares the runtime attributes
    String? docker and String? docker_user. *)
Theorem container_lines (a : args) (work_dir text : string) :
  render a work_dir = Ok text →
  if no_container a
  then contains ("        " +:+ ("submit-docker: " +:+ dq +:+ dq) +:+ nl) text
  else contains ("        " +:+ join (nl +:+ "        ") docker_attrs +:+ nl) text.
Proof.
  intros H. apply render_fill in H as [hpc ->].
  destruct a as [sch qu rss [|]]; cbn [no_container].
  - apply (fill_around _ _ "submit_docker" "        " nl);
      [vm_compute; reflexivity|].
    unfold update. rewrite lookup_union_l'; vm_compute; eauto.
  - apply (fill_around _ _ "docker_attrs" "        " nl);
      [vm_compute; reflexivity|].
    unfold update. rewrite lookup_union_l'; vm_compute; eauto.
Qed.

Lemma container_lines_witness :
  ∃ text,
    render (Args None None [] true) "/work" = Ok text
    ∧ contains ("        " +:+ ("submit-docker: " +:+ dq +:+ dq) +:+ nl) text.
Proof.
  eexists. split; [vm_compute; reflexivity|].
  apply (container_lines (Args None None [] true) "/work").
  vm_compute. reflexivity.
Defined.
